(** * Answer extraction and self-correction pipeline (data_extractor.py)

    A shallow embedding of [src/data_extractor.py]: the context truncator,
    the retrying JSON caller, the category-scoped extractor, the
    self-correction reviewer and the correction applicator, followed by the
    properties of the specification that concern them.

    Conventions of the embedding.
    - A Python [str] is a [string]; one [ascii] stands for one character, so
      [String.length] is Python's [len] and [substring 0 n] is the slice
      [s[:n]].
    - Logging ([logger.info], [logger.warning], [logger.error]) and
      [time.sleep] change nothing the functions return and are left out.
    - The LLM gateway is the only stateful collaborator: calls to it are
      threaded through an explicit world that also records every request.
    - The functions come first on inputs of the data model and with a
      decoder that returns a value or raises [json.JSONDecodeError]. The
      modules [Dicts] and [Full] then give the applicator on corrections
      that hold any JSON value, and the extractor and the reviewer with a
      decoder that can raise [RecursionError], each with the exception
      that leaves the function; they agree with the first ones wherever
      nothing is raised. *)

From Stdlib Require Import String Ascii List Bool Arith NArith ZArith Lia.
From Stdlib Require Import Permutation DecimalString Floats.
Import ListNotations.

Local Open Scope list_scope.
Local Open Scope string_scope.

(* ===================================================================== *)
(** * Python string operations used by the module *)
(* ===================================================================== *)

Module PyStr.

(** [s.startswith(p)] *)
Definition startswith (s p : string) : bool := String.prefix p s.

(** [s.endswith(p)] *)
Definition endswith (s p : string) : bool :=
  let n := String.length s in
  let k := String.length p in
  (k <=? n)%nat && (substring (n - k) k s =? p).

(** [c.isspace()] for the characters below 256: TAB, LF, VT, FF, CR, the
    four separators FS, GS, RS, US, the space, NEL and the no-break space. *)
Definition isspace (c : ascii) : bool :=
  let n := nat_of_ascii c in
  (((9 <=? n) && (n <=? 13)) || ((28 <=? n) && (n <=? 32))
   || (n =? 133) || (n =? 160))%nat.

(** [s.lstrip()] *)
Fixpoint lstrip (s : string) : string :=
  match s with
  | EmptyString => EmptyString
  | String c s' => if isspace c then lstrip s' else s
  end.

(** [s.rstrip()] *)
Fixpoint rstrip (s : string) : string :=
  match s with
  | EmptyString => EmptyString
  | String c s' =>
      match rstrip s' with
      | EmptyString => if isspace c then EmptyString else String c EmptyString
      | r => String c r
      end
  end.

(** [s.strip()] *)
Definition strip (s : string) : string := rstrip (lstrip s).

(** [bool(s)]: a string is truthy when it is not empty. *)
Definition truthy (s : string) : bool :=
  match s with EmptyString => false | String _ _ => true end.

(** [needle in s] for two strings: substring test. *)
Definition contains (s needle : string) : bool :=
  match index 0 needle s with Some _ => true | None => false end.

(** [sep.join(parts)] *)
Definition join (sep : string) (parts : list string) : string :=
  String.concat sep parts.

(** [str(n)] for a non-negative integer. *)
Definition str_of_nat (n : nat) : string :=
  NilEmpty.string_of_uint (Nat.to_uint n).

(** [len(s)], as a binary natural number. *)
Definition len (s : string) : N := N.of_nat (String.length s).

End PyStr.

(* ===================================================================== *)
(** * Constants *)
(* ===================================================================== *)

Definition MAX_MARKDOWN_CONTEXT_CHARS : N := 280000.
Definition MAX_LLM_RETRIES : nat := 3.
Definition LLM_RETRY_DELAY_SECONDS : N := 5.

(** The literal appended by [_truncate_markdown]: a line feed followed by
    [...[DOCUMENT TRUNCATED]]. *)
Definition TRUNCATION_MARKER : string :=
  String "010" "...[DOCUMENT TRUNCATED]".

(* ===================================================================== *)
(** * Context truncator *)
(* ===================================================================== *)

(** [_truncate_markdown(markdown_content, product_name)]; the product
    name only reaches the log. *)
Definition _truncate_markdown (markdown_content product_name : string) : string :=
  if (MAX_MARKDOWN_CONTEXT_CHARS <? PyStr.len markdown_content)%N then
    substring 0 (N.to_nat MAX_MARKDOWN_CONTEXT_CHARS) markdown_content
      ++ TRUNCATION_MARKER
  else markdown_content.

(** [check_document_size] applied to the aggregated text (or to its
    absence): whether the limit is exceeded, and the length. *)
Definition check_document_size_of (product_markdown : option string) : bool * N :=
  match product_markdown with
  | None => (false, 0%N)
  | Some md =>
      if PyStr.truthy md then
        ((MAX_MARKDOWN_CONTEXT_CHARS <? PyStr.len md)%N, PyStr.len md)
      else (false, 0%N)
  end.

(* ===================================================================== *)
(** * JSON values and Python dictionaries *)
(* ===================================================================== *)

(** What [json.loads] can return. An object is a Python [dict]: its items
    in insertion order, every key once. *)
#[warnings="-register-all"] Inductive json : Type :=
| JNull
| JBool (b : bool)
| JInt (z : Z)
| JFloat (f : float)
| JStr (s : string)
| JArr (items : list json)
| JObj (items : list (string * json)).

Module PyDict.

(** A [dict] with [str] keys, as the list of its items in insertion
    order. *)
Definition t (V : Type) : Type := list (string * V).

(** [d.get(k)] *)
Fixpoint get {V} (d : t V) (k : string) : option V :=
  match d with
  | [] => None
  | (k', v) :: d' => if (k' =? k)%string then Some v else get d' k
  end.

(** [k in d] *)
Definition mem {V} (d : t V) (k : string) : bool :=
  match get d k with Some _ => true | None => false end.

(** [d[k] = v]: an existing key keeps its place, a new key goes last. *)
Fixpoint set {V} (d : t V) (k : string) (v : V) : t V :=
  match d with
  | [] => [(k, v)]
  | (k', v') :: d' =>
      if (k' =? k)%string then (k', v) :: d' else (k', v') :: set d' k v
  end.

(** [list(d.keys())] and [list(d.values())] *)
Definition keys {V} (d : t V) : list string := map fst d.
Definition values {V} (d : t V) : list V := map snd d.

End PyDict.

(** The exceptions the module can meet. [JSONDecodeError] is a subclass
    of [ValueError]. *)
Inductive PyExn : Type := JSONDecodeError | ValueError | TypeError | KeyError.

(** [isinstance(e, (json.JSONDecodeError, ValueError))]: the handler of
    both [try] blocks. *)
Definition caught_by_parse_handler (e : PyExn) : bool :=
  match e with
  | JSONDecodeError | ValueError => true
  | TypeError | KeyError => false
  end.

Module PyJson.

(** [v == k] for a [str] [k]: only a string compares equal to a string. *)
Definition eq_str (v : json) (k : string) : bool :=
  match v with JStr s => (s =? k)%string | _ => false end.

(** [k in v] for a [str] [k]: key test on a dict, element test on a list,
    substring test on a string, [TypeError] on anything else. *)
Definition contains (v : json) (k : string) : PyExn + bool :=
  match v with
  | JObj d => inr (PyDict.mem d k)
  | JArr l => inr (existsb (fun x => eq_str x k) l)
  | JStr s => inr (PyStr.contains s k)
  | JNull | JBool _ | JInt _ | JFloat _ => inl TypeError
  end.

(** [v[k]] for a [str] [k]: a dict gives the value or [KeyError]; a list
    or a string wants an integer index; the rest cannot be subscripted. *)
Definition getitem (v : json) (k : string) : PyExn + json :=
  match v with
  | JObj d => match PyDict.get d k with Some x => inr x | None => inl KeyError end
  | _ => inl TypeError
  end.

(** [isinstance(v, list)] and [isinstance(v, dict)] *)
Definition is_list (v : json) : bool :=
  match v with JArr _ => true | _ => false end.
Definition is_dict (v : json) : bool :=
  match v with JObj _ => true | _ => false end.

End PyJson.

(* ===================================================================== *)
(** * Data model *)
(* ===================================================================== *)

(** The [status] tag of an answer record. *)
Inductive Status : Type :=
| raw | error_llm | error_parsing | error_not_implemented
| corrected | review_suggested.

(** A configured question; [applies_to_categories] may be missing from
    the dict, which the two readers default differently. *)
Module Question.
Record t : Type := mk {
  id : string;
  text : string;
  applies_to_categories : option (list string)
}.
End Question.

(** The questions configuration; a missing key reads as the empty list
    ([questions_config.get(key, [])]). *)
Module QuestionsConfig.
Record t : Type := mk {
  categories : list string;
  questions : list Question.t
}.
End QuestionsConfig.

(** An answer record; [correction_reason] is absent until a correction is
    applied. *)
Module AnswerRecord.
Record t : Type := mk {
  question_id : string;
  question_text : string;
  answer : string;
  category : string;
  status : Status;
  correction_reason : option string
}.
End AnswerRecord.

(** What [extract_answers_for_product] returns on success. *)
Module ProductExtractionResult.
Record t : Type := mk {
  product_name : string;
  answers : list AnswerRecord.t
}.
End ProductExtractionResult.

(** A correction suggestion of the data model: the fields are strings;
    each is read with [correction.get] and so may be missing. A correction
    that holds other JSON values is a dictionary, see [Dicts] below. *)
Module Correction.
Record t : Type := mk {
  question_id : option string;
  original_answer : option string;
  suggested_correction : option string;
  reason : option string
}.
End Correction.

(** The part of a product's [_config.json] the module reads. A page path
    may be [None] or empty, which the loop skips. *)
Module DocInfo.
Record t : Type := mk {
  doc_name : option string;
  markdown_pages_paths_absolute : option (list (option string));
  markdown_pages_paths : option (list (option string))
}.
End DocInfo.

(** A config without the key [markdown_document_infos], the empty dict
    among them, has [None] there. *)
Module ProductConfig.
Record t : Type := mk {
  markdown_document_infos : option (list DocInfo.t)
}.
End ProductConfig.

(** One chat message and one gateway request. *)
Module Message.
Record t : Type := mk { role : string; content : string }.
End Message.

Module Request.
Record t : Type := mk {
  messages : list Message.t;
  model : string;
  json_mode : bool;
  max_tokens : N
}.
End Request.

(** What one call of [call_llm] gives: text, [None], or an exception. *)
Inductive Reply : Type :=
| Content (response : string)
| NoContent
| CallRaised.

(* ===================================================================== *)
(** * Collaborators *)
(* ===================================================================== *)

(** What the module takes from outside: the LLM service, the product
    store, two library functions of [re] and [json], Python's [str] on a
    value that is not a string, and the prompt templates of [prompts.py]
    with their fields filled in. *)
Class Collaborators : Type := {
  (** the state of the LLM service behind [call_llm], and one call *)
  Gateway : Type;
  gateway_reply : Request.t -> Gateway -> Reply * Gateway;
  (** [utils.clean_filename], [local_storage.load_product_config] and
      [local_storage.load_markdown_page] *)
  clean_filename : string -> string;
  load_product_config : string -> option ProductConfig.t;
  load_markdown_page : string -> option string;
  (** [re.sub(r"```json\n(.*?)\n```", r"\1", s, flags=re.DOTALL)] and
      [re.sub(r"```(.*?)\n```", r"\1", s, flags=re.DOTALL)] *)
  re_sub_json_fence : string -> string;
  re_sub_fence : string -> string;
  (** [json.loads]; [None] stands for [json.JSONDecodeError]. The
      [RecursionError] of a text nested too deep is the matter of [Full]
      below. *)
  json_loads : string -> option json;
  (** [str(v)] for a decoded value [v] that is not a string *)
  py_repr : json -> string;
  (** [EXTRACTION_SYSTEM_PROMPT_TEMPLATE.format(category=...)] *)
  extraction_system_prompt : string -> string;
  (** [EXTRACTION_USER_PROMPT_TEMPLATE.format(product_name=...,
      category=..., truncated_markdown=..., prompt_questions_str=...)] *)
  extraction_user_prompt : string -> string -> string -> string -> string;
  (** [SELF_CORRECTION_SYSTEM_PROMPT] *)
  SELF_CORRECTION_SYSTEM_PROMPT : string;
  (** [SELF_CORRECTION_USER_PROMPT_TEMPLATE.format(product_name=...,
      truncated_markdown=..., answers_str=...)] *)
  self_correction_user_prompt : string -> string -> string -> string
}.

(* ===================================================================== *)
(** * The world and its monad *)
(* ===================================================================== *)

(** The world a run goes through: the service's state and the requests
    sent so far, oldest first. *)
Record World `{Collaborators} : Type := mkWorld {
  gateway : Gateway;
  llm_calls : list Request.t
}.
Arguments mkWorld {_} _ _.

Definition M `{Collaborators} (A : Type) : Type := World -> A * World.

Definition ret `{Collaborators} {A} (a : A) : M A := fun w => (a, w).

Definition bind `{Collaborators} {A B} (c : M A) (k : A -> M B) : M B :=
  fun w => let (a, w') := c w in k a w'.

Notation "x <- c ;; k" := (bind c (fun x => k))
  (at level 61, c at next level, right associativity).

(** The line feed, and [default] for [d.get(key, default)]. *)
Definition LF : string := String "010" EmptyString.

Definition get_or {A} (o : option A) (default : A) : A :=
  match o with Some a => a | None => default end.

(** [enumerate(l)], starting at [i]. *)
Fixpoint enumerate_from {A} (i : nat) (l : list A) : list (nat * A) :=
  match l with
  | [] => []
  | x :: l' => (i, x) :: enumerate_from (S i) l'
  end.

(** [str(v)] on a decoded value: a string is itself. *)
Definition py_str `{Collaborators} (v : json) : string :=
  match v with JStr s => s | _ => py_repr v end.

(** [str(v)] where [v] is a string or [None]. *)
Definition str_of_optional (v : option string) : string :=
  match v with Some s => s | None => "None" end.

Section Pipeline.
Context `{Collaborators}.

(* ===================================================================== *)
(** * LLM gateway and retrying JSON caller *)
(* ===================================================================== *)

(** [call_llm(messages, model, json_mode=..., max_tokens=...)]: one
    round trip, recorded in the world. *)
Definition call_llm (messages : list Message.t) (model : string)
    (json_mode : bool) (max_tokens : N) : M Reply :=
  fun w =>
    let request := Request.mk messages model json_mode max_tokens in
    let (reply, g) := gateway_reply request (gateway w) in
    (reply, mkWorld g (llm_calls w ++ [request])%list).

(** The shape test of the retrying caller, on the stripped response. *)
Definition json_shaped (stripped_response : string) : bool :=
  (PyStr.startswith stripped_response "{" && PyStr.endswith stripped_response "}")
  || (PyStr.startswith stripped_response "[" && PyStr.endswith stripped_response "]").

(** The body of [for attempt in range(retries)], with [remaining] the
    attempts still to make. *)
Fixpoint retry_attempts (remaining : nat) (messages : list Message.t)
    (model : string) (max_tokens : N) : M (option string) :=
  match remaining with
  | O => ret None
  | S remaining' =>
      reply <- call_llm messages model true max_tokens ;;
      match reply with
      | Content response =>
          if PyStr.truthy response then
            if json_shaped (PyStr.strip response) then ret (Some response)
            else retry_attempts remaining' messages model max_tokens
          else retry_attempts remaining' messages model max_tokens
      | NoContent | CallRaised =>
          retry_attempts remaining' messages model max_tokens
      end
  end.

(** [_call_llm_with_retry(messages, model, max_tokens, retries)] *)
Definition _call_llm_with_retry (messages : list Message.t) (model : string)
    (max_tokens : N) (retries : nat) : M (option string) :=
  retry_attempts retries messages model max_tokens.

(* ===================================================================== *)
(** * Document text provider *)
(* ===================================================================== *)

(** The parts one page path adds to [full_md_content_parts]; a path that
    is [None] or empty adds nothing, and neither does a page that cannot
    be loaded. *)
Definition page_parts (page_path : option string) : list string :=
  match page_path with
  | Some p =>
      if PyStr.truthy p then
        match load_markdown_page p with
        | Some page_content => [page_content ++ LF]
        | None => []
        end
      else []
  | None => []
  end.

(** The parts one document adds: its header, then its pages. *)
Definition doc_parts (doc_info : DocInfo.t) : list string :=
  let doc_name := get_or (DocInfo.doc_name doc_info) "unnamed_document" in
  let header := LF ++ LF ++ "--- Content from Document: " ++ doc_name ++ " ---" ++ LF in
  let page_paths :=
    match get_or (DocInfo.markdown_pages_paths_absolute doc_info) [] with
    | [] => get_or (DocInfo.markdown_pages_paths doc_info) []
    | absolute => absolute
    end in
  header :: flat_map page_parts page_paths.

(** [_get_full_markdown_for_product(product_name)] *)
Definition _get_full_markdown_for_product (product_name : string) : option string :=
  let safe_product_name := clean_filename product_name in
  match load_product_config safe_product_name with
  | None => None
  | Some product_config =>
      match ProductConfig.markdown_document_infos product_config with
      | None => None
      | Some infos =>
          let full_md_content := PyStr.join EmptyString (flat_map doc_parts infos) in
          if PyStr.truthy (PyStr.strip full_md_content) then Some full_md_content
          else None
      end
  end.

(** [check_document_size(product_name)] *)
Definition check_document_size (product_name : string) : bool * N :=
  check_document_size_of (_get_full_markdown_for_product product_name).

(* ===================================================================== *)
(** * Category-scoped extractor *)
(* ===================================================================== *)

(** [category in q.get("applies_to_categories", [])] *)
Definition applies_to (category : string) (q : Question.t) : bool :=
  existsb (String.eqb category) (get_or (Question.applies_to_categories q) []).

(** [[q for q in all_questions if category in q.get(...)]] *)
Definition questions_for_category (category : string)
    (all_questions : list Question.t) : list Question.t :=
  filter (applies_to category) all_questions.

(** The enumerated question list of the prompt: one line
    [i+1. (ID: id) text] per question, joined by line feeds. *)
Definition prompt_questions_str (questions_for_category : list Question.t) : string :=
  PyStr.join LF
    (map (fun iq : nat * Question.t =>
            let (i, q) := iq in
            PyStr.str_of_nat (i + 1) ++ ". (ID: " ++ Question.id q ++ ") "
              ++ Question.text q)
         (enumerate_from 0 questions_for_category)).

(** The two messages of one category's call. *)
Definition extraction_messages (product_name category product_markdown_truncated : string)
    (questions_for_category : list Question.t) : list Message.t :=
  let system_prompt := extraction_system_prompt category in
  let user_prompt :=
    extraction_user_prompt product_name category product_markdown_truncated
      (prompt_questions_str questions_for_category) in
  [Message.mk "system" system_prompt; Message.mk "user" user_prompt].

(** The three kinds of record the category loop appends. *)
Definition error_llm_record (category : string) (q_dict : Question.t) : AnswerRecord.t :=
  AnswerRecord.mk (Question.id q_dict) (Question.text q_dict)
    "Error: LLM extraction failed" category error_llm None.

Definition error_parsing_record (category : string) (q_dict : Question.t) : AnswerRecord.t :=
  AnswerRecord.mk (Question.id q_dict) (Question.text q_dict)
    "Error: Parsing LLM response failed" category error_parsing None.

Definition raw_record (category : string) (answers_json : PyDict.t json)
    (q_dict : Question.t) : AnswerRecord.t :=
  let q_id := Question.id q_dict in
  let answer_text :=
    get_or (PyDict.get answers_json q_id) (JStr "Answer not found by LLM.") in
  AnswerRecord.mk q_id (Question.text q_dict) (py_str answer_text) category raw None.

(** The record of the branch without categories. *)
Definition not_implemented_record (q_dict : Question.t) : AnswerRecord.t :=
  AnswerRecord.mk (Question.id q_dict) (Question.text q_dict)
    "Error: Batch extraction not fully implemented"
    (PyStr.join ", " (get_or (Question.applies_to_categories q_dict) ["N/A"]))
    error_not_implemented None.

(** Fence stripping and decoding, shared by both [try] blocks. *)
Definition decode_response (response_str : string) : option json :=
  let cleaned_response_str := re_sub_fence (re_sub_json_fence response_str) in
  json_loads (PyStr.strip cleaned_response_str).

(** The [try] block of the category loop: the records to append for a
    response the retrying caller accepted. *)
Definition parse_category_response (category : string)
    (questions_for_category : list Question.t) (response_str : string)
    : list AnswerRecord.t :=
  match decode_response response_str with
  | Some (JObj answers_json) =>
      map (raw_record category answers_json) questions_for_category
  | Some _ | None =>
      map (error_parsing_record category) questions_for_category
  end.

(** One turn of [for category in categories]: the records it appends. *)
Definition extract_category (product_name product_markdown_truncated model_choice : string)
    (all_questions : list Question.t) (category : string) : M (list AnswerRecord.t) :=
  let questions_for_category := questions_for_category category all_questions in
  match questions_for_category with
  | [] => ret []
  | _ :: _ =>
      let messages :=
        extraction_messages product_name category product_markdown_truncated
          questions_for_category in
      response_str <- _call_llm_with_retry messages model_choice 32000 MAX_LLM_RETRIES ;;
      match response_str with
      | None => ret (map (error_llm_record category) questions_for_category)
      | Some response_str =>
          if PyStr.truthy response_str then
            ret (parse_category_response category questions_for_category response_str)
          else ret (map (error_llm_record category) questions_for_category)
      end
  end.

(** [for category in categories], growing [all_answers_for_product]. *)
Fixpoint extract_categories (product_name product_markdown_truncated model_choice : string)
    (all_questions : list Question.t) (categories : list string)
    (all_answers_for_product : list AnswerRecord.t) : M (list AnswerRecord.t) :=
  match categories with
  | [] => ret all_answers_for_product
  | category :: categories' =>
      appended <- extract_category product_name product_markdown_truncated
                    model_choice all_questions category ;;
      extract_categories product_name product_markdown_truncated model_choice
        all_questions categories' (all_answers_for_product ++ appended)%list
  end.

(** [bool(l)] for a list *)
Definition nonempty {A} (l : list A) : bool :=
  match l with [] => false | _ :: _ => true end.

(** [extract_answers_for_product(product_name, questions_config,
    extract_by_category, model_choice)]; [None] is the failure. With a
    decoder that returns or raises [json.JSONDecodeError] nothing leaves
    the function as an exception; [Full.extract_answers_for_product]
    below has the run in which the decoder raises [RecursionError]. *)
Definition extract_answers_for_product (product_name : string)
    (questions_config : QuestionsConfig.t) (extract_by_category : bool)
    (model_choice : string) : M (option ProductExtractionResult.t) :=
  match _get_full_markdown_for_product product_name with
  | None => ret None
  | Some product_markdown_full =>
      if negb (PyStr.truthy product_markdown_full) then ret None
      else
        let product_markdown_truncated :=
          _truncate_markdown product_markdown_full product_name in
        let categories := QuestionsConfig.categories questions_config in
        let all_questions := QuestionsConfig.questions questions_config in
        if negb (nonempty categories) || negb (nonempty all_questions) then
          ret (Some (ProductExtractionResult.mk product_name []))
        else if extract_by_category then
          all_answers_for_product <-
            extract_categories product_name product_markdown_truncated
              model_choice all_questions categories [] ;;
          ret (Some (ProductExtractionResult.mk product_name all_answers_for_product))
        else
          ret (Some (ProductExtractionResult.mk product_name
                       (map not_implemented_record all_questions)))
  end.

(* ===================================================================== *)
(** * Self-correction reviewer *)
(* ===================================================================== *)

(** The answers as the review prompt lists them. *)
Definition answers_str (extracted_answers : list AnswerRecord.t) : string :=
  PyStr.join LF
    (map (fun ia : nat * AnswerRecord.t =>
            let (i, ans_item) := ia in
            PyStr.str_of_nat (i + 1) ++ ". Category: "
              ++ AnswerRecord.category ans_item ++ LF
              ++ "   Question (ID: " ++ AnswerRecord.question_id ans_item ++ "): "
              ++ AnswerRecord.question_text ans_item ++ LF
              ++ "   Extracted Answer: " ++ AnswerRecord.answer ans_item ++ LF)
         (enumerate_from 0 extracted_answers)).

Definition review_messages (product_name product_markdown_truncated : string)
    (extracted_answers : list AnswerRecord.t) : list Message.t :=
  let user_prompt :=
    self_correction_user_prompt product_name product_markdown_truncated
      (answers_str extracted_answers) in
  [Message.mk "system" SELF_CORRECTION_SYSTEM_PROMPT; Message.mk "user" user_prompt].

(** The four keys a correction item must have. *)
Definition REQUIRED_CORRECTION_KEYS : list string :=
  ["question_id"; "original_answer"; "suggested_correction"; "reason"].

(** [isinstance(item, dict) and all(k in item for k in [...])] *)
Definition valid_correction_item (item : json) : bool :=
  match item with
  | JObj d => forallb (PyDict.mem d) REQUIRED_CORRECTION_KEYS
  | _ => false
  end.

(** The condition of the [if] that raises [ValueError]:
    ["corrections" not in review_data or
     not isinstance(review_data["corrections"], list)],
    the right operand evaluated only when the left one is false. *)
Definition corrections_malformed (review_data : json) : PyExn + bool :=
  match PyJson.contains review_data "corrections" with
  | inl e => inl e
  | inr false => inr true
  | inr true =>
      match PyJson.getitem review_data "corrections" with
      | inl e => inl e
      | inr v => inr (negb (PyJson.is_list v))
      end
  end.

(** The body of the reviewer's [try] block, on the decoded value. *)
Definition review_decoded (review_data : json) : PyExn + list json :=
  match corrections_malformed review_data with
  | inl e => inl e
  | inr true => inl ValueError
  | inr false =>
      match PyJson.getitem review_data "corrections" with
      | inl e => inl e
      | inr (JArr corrections_list) => inr (filter valid_correction_item corrections_list)
      | inr _ => inl TypeError (* not reached: the test has just seen a list *)
      end
  end.

(** The whole [try] block. *)
Definition review_try (response_str : string) : PyExn + list json :=
  match decode_response response_str with
  | None => inl JSONDecodeError
  | Some review_data => review_decoded review_data
  end.

(** [try ... except (json.JSONDecodeError, ValueError): return None]:
    a caught exception gives [None], any other escapes. *)
Definition review_response (response_str : string) : PyExn + option (list json) :=
  match review_try response_str with
  | inr valid_corrections => inr (Some valid_corrections)
  | inl e => if caught_by_parse_handler e then inr None else inl e
  end.

(** [self_correct_answers(product_name, extracted_answers, model_choice)]:
    [inr None] is the failure, [inr (Some l)] the corrections, [inl e] an
    exception that leaves the function. *)
Definition self_correct_answers (product_name : string)
    (extracted_answers : list AnswerRecord.t) (model_choice : string)
    : M (PyExn + option (list json)) :=
  match _get_full_markdown_for_product product_name with
  | None => ret (inr None)
  | Some product_markdown_full =>
      if negb (PyStr.truthy product_markdown_full) then ret (inr None)
      else
        let product_markdown_truncated :=
          _truncate_markdown product_markdown_full product_name in
        let messages :=
          review_messages product_name product_markdown_truncated extracted_answers in
        response_str <- _call_llm_with_retry messages model_choice 32000 MAX_LLM_RETRIES ;;
        match response_str with
        | None => ret (inr None)
        | Some response_str =>
            if PyStr.truthy response_str then ret (review_response response_str)
            else ret (inr None)
        end
  end.

End Pipeline.

(* ===================================================================== *)
(** * Correction applicator *)
(* ===================================================================== *)

(** [{ans['question_id']: ans.copy() for ans in original_answers}] *)
Definition answers_map (original_answers : list AnswerRecord.t)
    : PyDict.t AnswerRecord.t :=
  fold_left (fun m ans => PyDict.set m (AnswerRecord.question_id ans) ans)
    original_answers [].

(** The three assignments made to the record of a corrected answer. *)
Definition corrected_record (ans : AnswerRecord.t) (correction : Correction.t)
    : AnswerRecord.t :=
  AnswerRecord.mk
    (AnswerRecord.question_id ans)
    (AnswerRecord.question_text ans)
    (str_of_optional (Correction.suggested_correction correction))
    (AnswerRecord.category ans)
    corrected
    (Some (get_or (Correction.reason correction) "No reason provided.")).

(** One turn of [for correction in corrections_list], on a correction of
    the data model: its question id is a string or missing, so the
    membership test cannot raise. *)
Definition apply_correction (updated_answers_map : PyDict.t AnswerRecord.t)
    (correction : Correction.t) : PyDict.t AnswerRecord.t :=
  match Correction.question_id correction with
  | None => updated_answers_map
  | Some q_id =>
      match PyDict.get updated_answers_map q_id with
      | Some ans => PyDict.set updated_answers_map q_id (corrected_record ans correction)
      | None => updated_answers_map
      end
  end.

(** [apply_corrections(original_answers, corrections_list, product_name)];
    the product name only reaches the log. *)
Definition apply_corrections (original_answers : list AnswerRecord.t)
    (corrections_list : list Correction.t) (product_name : string)
    : list AnswerRecord.t :=
  let updated_answers_map :=
    fold_left apply_correction corrections_list (answers_map original_answers) in
  PyDict.values updated_answers_map.

(* ===================================================================== *)
(** * Notions used in the statements *)
(* ===================================================================== *)

(** The pair that identifies a record of one extraction run. *)
Definition answer_key (r : AnswerRecord.t) : string * string :=
  (AnswerRecord.question_id r, AnswerRecord.category r).


(** The gateway's reply to a request does not depend on what it was
    asked before. *)
Definition history_free_gateway `{Collaborators} : Prop :=
  forall (request : Request.t) (g g' : Gateway),
    fst (gateway_reply request g) = fst (gateway_reply request g').

(** What one correction does to one item of the answers map. *)
Definition correct_item (correction : Correction.t)
    (item : string * AnswerRecord.t) : string * AnswerRecord.t :=
  match Correction.question_id correction with
  | Some q_id =>
      if (fst item =? q_id)%string
      then (fst item, corrected_record (snd item) correction)
      else item
  | None => item
  end.

(** What a list of corrections, applied in order, does to one item. *)
Definition correct_all (corrections_list : list Correction.t)
    (item : string * AnswerRecord.t) : string * AnswerRecord.t :=
  fold_left (fun it correction => correct_item correction it) corrections_list item.

(** An answers map is well keyed when no key occurs twice and every
    record sits under its own question id. *)
Definition well_keyed (d : PyDict.t AnswerRecord.t) : Prop :=
  NoDup (PyDict.keys d)
  /\ Forall (fun item => AnswerRecord.question_id (snd item) = fst item) d.

(** Two items agree on the key and on the fields no correction touches. *)
Definition same_base (x y : string * AnswerRecord.t) : Prop :=
  fst x = fst y
  /\ AnswerRecord.question_id (snd x) = AnswerRecord.question_id (snd y)
  /\ AnswerRecord.question_text (snd x) = AnswerRecord.question_text (snd y)
  /\ AnswerRecord.category (snd x) = AnswerRecord.category (snd y).

(* ===================================================================== *)
(** * Filename cleaning (utils.py) *)
(* ===================================================================== *)

(** [utils.clean_filename], which the text provider applies to the product
    name. Its two [re.sub] calls use single-character classes only, so they
    are written out: the first keeps the characters of [\w], [\s] and the
    hyphen, the second turns every maximal run of hyphens and whitespace
    into one underscore. *)
Module Utils.

(** [\w] on a [str] pattern, for the characters below 256: the digits,
    the letters, the underscore, and among the characters from 128 on the
    letters (feminine and masculine ordinal, micro sign, 192 to 255 but
    for the multiplication and division signs), the superscript digits
    and the three vulgar fractions. *)
Definition isword (c : ascii) : bool :=
  let n := nat_of_ascii c in
  (((48 <=? n) && (n <=? 57)) || ((65 <=? n) && (n <=? 90)) || (n =? 95)
   || ((97 <=? n) && (n <=? 122))
   || (n =? 170) || (n =? 178) || (n =? 179) || (n =? 181) || (n =? 185)
   || (n =? 186) || ((188 <=? n) && (n <=? 190))
   || ((192 <=? n) && (n <=? 214)) || ((216 <=? n) && (n <=? 246))
   || ((248 <=? n) && (n <=? 255)))%nat.

(** The class [[-\s]] *)
Definition isseparator (c : ascii) : bool :=
  (c =? "-")%char || PyStr.isspace c.

(** The complement of the class [[^\w\s-]] *)
Definition iskept (c : ascii) : bool := isword c || isseparator c.

(** [re.sub(r'[^\w\s-]', '', s)] *)
Fixpoint drop_unsafe (s : string) : string :=
  match s with
  | EmptyString => EmptyString
  | String c s' =>
      if iskept c then String c (drop_unsafe s') else drop_unsafe s'
  end.

(** [re.sub(r'[-\s]+', '_', s)]: the underscore is written at the last
    character of each run. *)
Fixpoint collapse_separators (s : string) : string :=
  match s with
  | EmptyString => EmptyString
  | String c s' =>
      if isseparator c then
        match s' with
        | EmptyString => String "_" EmptyString
        | String c' _ =>
            if isseparator c' then collapse_separators s'
            else String "_" (collapse_separators s')
        end
      else String c (collapse_separators s')
  end.

(** [clean_filename(filename)], for a [str] argument. *)
Definition clean_filename (filename : string) : string :=
  let filename := PyStr.strip (drop_unsafe filename) in
  collapse_separators filename.

End Utils.

(* ===================================================================== *)
(** * Further notions used in the statements *)
(* ===================================================================== *)

(** Every character of a string passes a test. *)
Fixpoint string_forallb (f : ascii -> bool) (s : string) : bool :=
  match s with
  | EmptyString => true
  | String c s' => f c && string_forallb f s'
  end.

(** The request of the retrying caller. *)
Definition retry_request (messages : list Message.t) (model : string)
    (max_tokens : N) : Request.t :=
  Request.mk messages model true max_tokens.

(** A reply the retrying caller hands over: text that is not empty and
    passes the shape test once stripped. *)
Definition accepted_reply `{Collaborators} (reply : Reply) : bool :=
  match reply with
  | Content response =>
      PyStr.truthy response && json_shaped (PyStr.strip response)
  | NoContent | CallRaised => false
  end.

(** The replies the gateway gives when it is sent the same request [n]
    times in a row, first reply first. *)
Fixpoint gateway_replies `{Collaborators} (n : nat) (request : Request.t)
    (g : Gateway) : list Reply :=
  match n with
  | O => []
  | S n' =>
      let (reply, g') := gateway_reply request g in
      reply :: gateway_replies n' request g'
  end.

(** The text of the first accepted reply of a list, and the number of
    replies read up to and including it (all of them when none is
    accepted). *)
Fixpoint first_accepted `{Collaborators} (replies : list Reply) : option string :=
  match replies with
  | [] => None
  | reply :: replies' =>
      if accepted_reply reply then
        match reply with Content response => Some response | _ => None end
      else first_accepted replies'
  end.

Fixpoint replies_read `{Collaborators} (replies : list Reply) : nat :=
  match replies with
  | [] => O
  | reply :: replies' =>
      if accepted_reply reply then 1 else S (replies_read replies')
  end.

(** Some character of a string is not whitespace. *)
Fixpoint has_nonspace (s : string) : bool :=
  match s with
  | EmptyString => false
  | String c s' => negb (PyStr.isspace c) || has_nonspace s'
  end.

(** A category of the configuration that has at least one question. *)
Definition has_questions `{Collaborators} (all_questions : list Question.t)
    (category : string) : bool :=
  nonempty (questions_for_category category all_questions).

(** The shape every record of a by-category run has. *)
Definition category_record_shape (r : AnswerRecord.t) : Prop :=
  AnswerRecord.correction_reason r = None
  /\ ((AnswerRecord.status r = raw)
      \/ (AnswerRecord.status r = error_llm
          /\ AnswerRecord.answer r = "Error: LLM extraction failed")
      \/ (AnswerRecord.status r = error_parsing
          /\ AnswerRecord.answer r = "Error: Parsing LLM response failed")).

(** The last correction of a list that names a question id. *)
Definition targets (q_id : string) (correction : Correction.t) : bool :=
  match Correction.question_id correction with
  | Some q => (q =? q_id)%string
  | None => false
  end.

Definition last_correction_for (q_id : string)
    (corrections_list : list Correction.t) : option Correction.t :=
  find (targets q_id) (rev corrections_list).

(** The record of a question id in a list of answers: the first one, and
    the last one. *)
Definition answer_for (q_id : string) (answers : list AnswerRecord.t)
    : option AnswerRecord.t :=
  find (fun r => (AnswerRecord.question_id r =? q_id)%string) answers.

Definition last_answer_for (q_id : string) (answers : list AnswerRecord.t)
    : option AnswerRecord.t :=
  answer_for q_id (rev answers).

(** The ids of a list that have not been seen before, each at its first
    occurrence. *)
Fixpoint first_occurrences (seen ids : list string) : list string :=
  match ids with
  | [] => []
  | q_id :: ids' =>
      if existsb (String.eqb q_id) seen then first_occurrences seen ids'
      else q_id :: first_occurrences (seen ++ [q_id])%list ids'
  end.

(** The fields of a record that no correction touches. *)
Definition record_base (r : AnswerRecord.t) : string * string * string :=
  (AnswerRecord.question_id r, AnswerRecord.question_text r,
   AnswerRecord.category r).

(* ===================================================================== *)
(** * The applicator on corrections as they are handed over *)
(* ===================================================================== *)

(** [apply_corrections] above reads corrections whose fields are strings.
    The corrections that reach the function are the dictionaries the
    reviewer has let through, and the reviewer tests their keys only: the
    values are any JSON values. Below is the same function on such
    dictionaries, with the exception the membership test raises. *)

(** An answer record as the applicator files it: [correction_reason]
    holds whatever value the correction had under [reason]. *)
Module AnswerDict.
Record t : Type := mk {
  question_id : string;
  question_text : string;
  answer : string;
  category : string;
  status : Status;
  correction_reason : option json
}.

Definition of_record (r : AnswerRecord.t) : t :=
  mk (AnswerRecord.question_id r) (AnswerRecord.question_text r)
     (AnswerRecord.answer r) (AnswerRecord.category r) (AnswerRecord.status r)
     (option_map JStr (AnswerRecord.correction_reason r)).
End AnswerDict.

Module Dicts.

(** A value that [hash] accepts: lists and dicts are unhashable. *)
Definition hashable (v : json) : bool :=
  match v with
  | JArr _ | JObj _ => false
  | JNull | JBool _ | JInt _ | JFloat _ | JStr _ => true
  end.

(** The [question_id] of a correction can be looked up in a dict: it is
    missing, which reads as [None], or it is hashable. *)
Definition hashable_id (correction : PyDict.t json) : bool :=
  match PyDict.get correction "question_id" with
  | Some v => hashable v
  | None => true
  end.

(** A correction of the data model as the dictionary of its fields. *)
Definition of_correction (correction : Correction.t) : PyDict.t json :=
  let field (k : string) (v : option string) : PyDict.t json :=
    match v with Some s => [(k, JStr s)] | None => [] end in
  (field "question_id" (Correction.question_id correction)
     ++ field "original_answer" (Correction.original_answer correction)
     ++ field "suggested_correction" (Correction.suggested_correction correction)
     ++ field "reason" (Correction.reason correction))%list.

(** [{ans['question_id']: ans.copy() for ans in original_answers}] *)
Definition answers_map (original_answers : list AnswerDict.t)
    : PyDict.t AnswerDict.t :=
  fold_left (fun m ans => PyDict.set m (AnswerDict.question_id ans) ans)
    original_answers [].

Section Applicator.
Context `{Collaborators}.

(** [str(d.get(key))]: a missing key and a null both read as [None]. *)
Definition str_of_get (v : option json) : string :=
  match v with
  | None | Some JNull => "None"
  | Some v' => py_str v'
  end.

(** The three assignments made to the record of a corrected answer. *)
Definition corrected_record (ans : AnswerDict.t) (correction : PyDict.t json)
    : AnswerDict.t :=
  let suggested_answer := PyDict.get correction "suggested_correction" in
  AnswerDict.mk
    (AnswerDict.question_id ans)
    (AnswerDict.question_text ans)
    (str_of_get suggested_answer)
    (AnswerDict.category ans)
    corrected
    (Some (get_or (PyDict.get correction "reason") (JStr "No reason provided."))).

(** One turn of [for correction in corrections_list]. The keys of the map
    are strings, so [q_id in updated_answers_map] is a lookup for a
    string, [False] for [None], a boolean or a number, and [TypeError]
    for a list or a dict, which cannot be hashed. *)
Definition apply_correction (updated_answers_map : PyDict.t AnswerDict.t)
    (correction : PyDict.t json) : PyExn + PyDict.t AnswerDict.t :=
  match PyDict.get correction "question_id" with
  | Some (JStr q_id) =>
      match PyDict.get updated_answers_map q_id with
      | Some ans =>
          inr (PyDict.set updated_answers_map q_id (corrected_record ans correction))
      | None => inr updated_answers_map
      end
  | Some (JArr _) | Some (JObj _) => inl TypeError
  | Some JNull | Some (JBool _) | Some (JInt _) | Some (JFloat _) | None =>
      inr updated_answers_map
  end.

(** The loop: an exception ends it. *)
Fixpoint apply_each (corrections_list : list (PyDict.t json))
    (updated_answers_map : PyDict.t AnswerDict.t)
    : PyExn + PyDict.t AnswerDict.t :=
  match corrections_list with
  | [] => inr updated_answers_map
  | correction :: corrections_list' =>
      match apply_correction updated_answers_map correction with
      | inl e => inl e
      | inr updated_answers_map' => apply_each corrections_list' updated_answers_map'
      end
  end.

(** [apply_corrections(original_answers, corrections_list, product_name)]:
    the final list, or the exception that leaves the function. *)
Definition apply_corrections (original_answers : list AnswerDict.t)
    (corrections_list : list (PyDict.t json)) (product_name : string)
    : PyExn + list AnswerDict.t :=
  match apply_each corrections_list (answers_map original_answers) with
  | inl e => inl e
  | inr updated_answers_map => inr (PyDict.values updated_answers_map)
  end.

End Applicator.
End Dicts.

(* ===================================================================== *)
(** * The extractor and the reviewer with a decoder that can give up *)
(* ===================================================================== *)

(** In [Collaborators], [json_loads] either returns a value or raises
    [json.JSONDecodeError], which both [try] blocks catch. On a text
    nested deeper than the interpreter's recursion limit [json.loads]
    raises [RecursionError] instead, which is no [ValueError]: neither
    handler catches it and it leaves the function. Below are both
    functions once more, with that outcome; [decoder_gives_up] tells the
    texts on which it happens. *)

(** What leaves a function as an exception: one raised in the [try] block
    that the handler lets through, or the decoder's own. *)
Inductive Uncaught : Type :=
| Raised (e : PyExn)
| RecursionError.

Module Full.
Section Full.
Context `{Collaborators}.
Variable decoder_gives_up : string -> bool.

(** [json.loads(cleaned_response_str.strip())] raises [RecursionError]. *)
Definition decode_gives_up (response_str : string) : bool :=
  let cleaned_response_str := re_sub_fence (re_sub_json_fence response_str) in
  decoder_gives_up (PyStr.strip cleaned_response_str).

(** One turn of [for category in categories]: the records it appends, or
    the exception that ends the run. *)
Definition extract_category (product_name product_markdown_truncated model_choice : string)
    (all_questions : list Question.t) (category : string)
    : M (Uncaught + list AnswerRecord.t) :=
  let questions_for_category := questions_for_category category all_questions in
  match questions_for_category with
  | [] => ret (inr [])
  | _ :: _ =>
      let messages :=
        extraction_messages product_name category product_markdown_truncated
          questions_for_category in
      response_str <- _call_llm_with_retry messages model_choice 32000 MAX_LLM_RETRIES ;;
      match response_str with
      | None => ret (inr (map (error_llm_record category) questions_for_category))
      | Some response_str =>
          if PyStr.truthy response_str then
            if decode_gives_up response_str then ret (inl RecursionError)
            else ret (inr (parse_category_response category questions_for_category
                             response_str))
          else ret (inr (map (error_llm_record category) questions_for_category))
      end
  end.

(** [for category in categories]: an exception ends the loop, and the
    later categories are not asked. *)
Fixpoint extract_categories (product_name product_markdown_truncated model_choice : string)
    (all_questions : list Question.t) (categories : list string)
    (all_answers_for_product : list AnswerRecord.t)
    : M (Uncaught + list AnswerRecord.t) :=
  match categories with
  | [] => ret (inr all_answers_for_product)
  | category :: categories' =>
      appended <- extract_category product_name product_markdown_truncated
                    model_choice all_questions category ;;
      match appended with
      | inl e => ret (inl e)
      | inr appended =>
          extract_categories product_name product_markdown_truncated model_choice
            all_questions categories' (all_answers_for_product ++ appended)%list
      end
  end.

(** [extract_answers_for_product(product_name, questions_config,
    extract_by_category, model_choice)]: [inr None] is the failure,
    [inr (Some result)] the result, [inl e] an exception that leaves the
    function. *)
Definition extract_answers_for_product (product_name : string)
    (questions_config : QuestionsConfig.t) (extract_by_category : bool)
    (model_choice : string) : M (Uncaught + option ProductExtractionResult.t) :=
  match _get_full_markdown_for_product product_name with
  | None => ret (inr None)
  | Some product_markdown_full =>
      if negb (PyStr.truthy product_markdown_full) then ret (inr None)
      else
        let product_markdown_truncated :=
          _truncate_markdown product_markdown_full product_name in
        let categories := QuestionsConfig.categories questions_config in
        let all_questions := QuestionsConfig.questions questions_config in
        if negb (nonempty categories) || negb (nonempty all_questions) then
          ret (inr (Some (ProductExtractionResult.mk product_name [])))
        else if extract_by_category then
          all_answers_for_product <-
            extract_categories product_name product_markdown_truncated
              model_choice all_questions categories [] ;;
          match all_answers_for_product with
          | inl e => ret (inl e)
          | inr all_answers_for_product =>
              ret (inr (Some (ProductExtractionResult.mk product_name
                                all_answers_for_product)))
          end
        else
          ret (inr (Some (ProductExtractionResult.mk product_name
                            (map not_implemented_record all_questions))))
  end.

(** The reviewer's [try ... except]: the decoder's [RecursionError]
    escapes, and so does what the handler lets through. *)
Definition review_response (response_str : string)
    : Uncaught + option (list json) :=
  if decode_gives_up response_str then inl RecursionError
  else
    match review_response response_str with
    | inl e => inl (Raised e)
    | inr valid_corrections => inr valid_corrections
    end.

(** [self_correct_answers(product_name, extracted_answers, model_choice)] *)
Definition self_correct_answers (product_name : string)
    (extracted_answers : list AnswerRecord.t) (model_choice : string)
    : M (Uncaught + option (list json)) :=
  match _get_full_markdown_for_product product_name with
  | None => ret (inr None)
  | Some product_markdown_full =>
      if negb (PyStr.truthy product_markdown_full) then ret (inr None)
      else
        let product_markdown_truncated :=
          _truncate_markdown product_markdown_full product_name in
        let messages :=
          review_messages product_name product_markdown_truncated extracted_answers in
        response_str <- _call_llm_with_retry messages model_choice 32000 MAX_LLM_RETRIES ;;
        match response_str with
        | None => ret (inr None)
        | Some response_str =>
            if PyStr.truthy response_str then ret (review_response response_str)
            else ret (inr None)
        end
  end.

End Full.
End Full.

(** The requests of a by-category run that asks each category of a list
    a given number of times, in order. *)
Definition category_request `{Collaborators}
    (product_name product_markdown_truncated model_choice : string)
    (all_questions : list Question.t) (category : string) : Request.t :=
  retry_request
    (extraction_messages product_name category product_markdown_truncated
       (questions_for_category category all_questions))
    model_choice 32000.

Fixpoint category_requests `{Collaborators}
    (product_name product_markdown_truncated model_choice : string)
    (all_questions : list Question.t) (categories : list string)
    (counts : list nat) : list Request.t :=
  match categories, counts with
  | category :: categories', k :: counts' =>
      (repeat (category_request product_name product_markdown_truncated
                 model_choice all_questions category) k
       ++ category_requests product_name product_markdown_truncated model_choice
            all_questions categories' counts')%list
  | _, _ => []
  end.

(** The number of requests a category may get: between one and
    [MAX_LLM_RETRIES] when it has a question, none otherwise. *)
Definition category_budget `{Collaborators} (all_questions : list Question.t)
    (category : string) (k : nat) : Prop :=
  if has_questions all_questions category then 1 <= k <= MAX_LLM_RETRIES
  else k = 0.


(* ===================================================================== *)
(** * A concrete setting: the AlphaCare scenario *)
(* ===================================================================== *)

(** One product on disk, a gateway that plays a script of replies, and a
    decoder that knows the responses of the scenario. None of these texts
    holds a code fence, so both [re.sub] calls leave them as they are. *)
Module Scenario.

Definition DQ : string := String "034" EmptyString.

(** A text of a given length. *)
Definition text_of_length (n : N) : string :=
  string_of_list_ascii (repeat "a"%char (N.to_nat n)).

(** The object that maps [q1] to [Covered, 500 CHF] and [q2] to the
    empty string. *)
Definition dental_response : string :=
  "{" ++ DQ ++ "q1" ++ DQ ++ ": " ++ DQ ++ "Covered, 500 CHF" ++ DQ ++ ", "
      ++ DQ ++ "q2" ++ DQ ++ ": " ++ DQ ++ DQ ++ "}".

(** [{"q1": "Covered, 500 CHF"}] *)
Definition partial_response : string :=
  "{" ++ DQ ++ "q1" ++ DQ ++ ": " ++ DQ ++ "Covered, 500 CHF" ++ DQ ++ "}".

(** [["corrections"]] *)
Definition array_response : string := "[" ++ DQ ++ "corrections" ++ DQ ++ "]".

(** [{"corrections": [{"question_id": "q1", "original_answer": "Yes",
    "suggested_correction": "No", "reason": "Section 3.2"}, {"question_id": "q2"}]}] *)
Definition review_response_text : string :=
  "{" ++ DQ ++ "corrections" ++ DQ ++ ": [{"
      ++ DQ ++ "question_id" ++ DQ ++ ": " ++ DQ ++ "q1" ++ DQ ++ ", "
      ++ DQ ++ "original_answer" ++ DQ ++ ": " ++ DQ ++ "Yes" ++ DQ ++ ", "
      ++ DQ ++ "suggested_correction" ++ DQ ++ ": " ++ DQ ++ "No" ++ DQ ++ ", "
      ++ DQ ++ "reason" ++ DQ ++ ": " ++ DQ ++ "Section 3.2" ++ DQ ++ "}, {"
      ++ DQ ++ "question_id" ++ DQ ++ ": " ++ DQ ++ "q2" ++ DQ ++ "}]}".

Definition full_item : json :=
  JObj [("question_id", JStr "q1"); ("original_answer", JStr "Yes");
        ("suggested_correction", JStr "No"); ("reason", JStr "Section 3.2")].

Definition short_item : json := JObj [("question_id", JStr "q2")].

Definition loads (s : string) : option json :=
  if s =? dental_response then
    Some (JObj [("q1", JStr "Covered, 500 CHF"); ("q2", JStr EmptyString)])
  else if s =? partial_response then
    Some (JObj [("q1", JStr "Covered, 500 CHF")])
  else if s =? array_response then
    Some (JArr [JStr "corrections"])
  else if s =? review_response_text then
    Some (JObj [("corrections", JArr [full_item; short_item])])
  else None.

Definition alpha_config : ProductConfig.t :=
  ProductConfig.mk
    (Some [DocInfo.mk (Some "terms.pdf") None (Some [Some "AlphaCare/terms_page_1.md"])]).

Definition play (request : Request.t) (script : list Reply) : Reply * list Reply :=
  match script with
  | [] => (NoContent, [])
  | reply :: script' => (reply, script')
  end.

#[export] Instance collaborators : Collaborators := {|
  Gateway := list Reply;
  gateway_reply := play;
  clean_filename := fun name => name;
  load_product_config := fun name =>
    if name =? "AlphaCare" then Some alpha_config else None;
  load_markdown_page := fun path =>
    if path =? "AlphaCare/terms_page_1.md" then Some "Dental care: 500 CHF a year."
    else None;
  re_sub_json_fence := fun s => s;
  re_sub_fence := fun s => s;
  json_loads := loads;
  py_repr := fun _ => EmptyString;
  extraction_system_prompt := fun category => "Category: " ++ category;
  extraction_user_prompt := fun product_name category truncated_markdown questions =>
    product_name ++ LF ++ category ++ LF ++ truncated_markdown ++ LF ++ questions;
  SELF_CORRECTION_SYSTEM_PROMPT := "Review the answers.";
  self_correction_user_prompt := fun product_name truncated_markdown answers =>
    product_name ++ LF ++ truncated_markdown ++ LF ++ answers
|}.

(** The text the provider builds for the product. *)
Definition alpha_text : string :=
  LF ++ LF ++ "--- Content from Document: terms.pdf ---" ++ LF
     ++ "Dental care: 500 CHF a year." ++ LF.

Definition q1 : Question.t := Question.mk "q1" "Is dental care covered?" (Some ["Dental"]).
Definition q2 : Question.t := Question.mk "q2" "Is there a waiting period?" (Some ["Dental"]).

(** One category, two questions. *)
Definition dental_config : QuestionsConfig.t :=
  QuestionsConfig.mk ["Dental"] [q1; q2].

(** A question that applies to two configured categories. *)
Definition shared_question : Question.t :=
  Question.mk "q1" "Is there a deductible?" (Some ["Dental"; "Vision"]).

Definition shared_config : QuestionsConfig.t :=
  QuestionsConfig.mk ["Dental"; "Vision"] [shared_question].

(** Three categories; the question of the middle one is [q2]. *)
Definition q3 : Question.t := Question.mk "q3" "Are glasses covered?" (Some ["Vision"]).
Definition q4 : Question.t := Question.mk "q4" "Is physiotherapy covered?" (Some ["Therapy"]).
Definition three_config : QuestionsConfig.t :=
  QuestionsConfig.mk ["Dental"; "Vision"; "Therapy"]
    [Question.mk "q1" "Is dental care covered?" (Some ["Dental"]); q3; q4].

Definition start (script : list Reply) : World := mkWorld (script : Gateway) [].

Definition r1 : AnswerRecord.t :=
  AnswerRecord.mk "q1" "Is dental care covered?" "Yes" "Dental" raw None.
Definition r2 : AnswerRecord.t :=
  AnswerRecord.mk "q2" "Is there a waiting period?" "Three months" "Dental" raw None.

Definition c1 : Correction.t :=
  Correction.mk (Some "q1") (Some "Yes") (Some "No, above 100 EUR only")
    (Some "Section 3.2").
Definition c9 : Correction.t :=
  Correction.mk (Some "q9") (Some "Yes") (Some "No") (Some "Section 7").

End Scenario.

(** Further inputs in the same setting. *)
Module Cases.

(** A configuration whose only category has no question: both questions
    apply to [Dental]. *)
Definition orphan_config : QuestionsConfig.t :=
  QuestionsConfig.mk ["Vision"] [Scenario.q1; Scenario.q2].

(** Text in braces that is no JSON: the shape test lets it through and
    the decoder refuses it. *)
Definition broken_response : string := "{not json}".

(** The script and the world of a run in which the first reply is
    refused. *)
Definition second_try : World :=
  Scenario.start [Content "not json"; Content Scenario.dental_response].

Definition one_reply (response : string) : World :=
  Scenario.start [Content response].

(** Three categories are asked; the second gets [not json] three times. *)
Definition middle_fails : World :=
  Scenario.start [Content Scenario.partial_response;
                  Content "not json"; Content "not json"; Content "not json";
                  Content Scenario.partial_response].

End Cases.

(** Inputs on which a function of the module raises. *)
Module Faults.

(** A correction with the four required keys whose [question_id] is the
    list [["q1"]]. *)
Definition list_id_correction : PyDict.t json :=
  [("question_id", JArr [JStr "q1"]); ("original_answer", JStr "Yes");
   ("suggested_correction", JStr "No"); ("reason", JStr "Section 3.2")].

(** A thousand opening brackets followed by a thousand closing ones, and
    a decoder whose recursion limit that text exceeds. *)
Definition deep_text : string :=
  string_of_list_ascii (repeat "["%char 1000 ++ repeat "]"%char 1000)%list.

Definition gives_up (s : string) : bool := (s =? deep_text)%string.

End Faults.

(* ===================================================================== *)
(** * Properties of the context truncator *)
(* ===================================================================== *)

Section StringFacts.

Lemma length_app (a b : string) :
  String.length (a ++ b) = String.length a + String.length b.
Proof.
  induction a as [|c a IH]; simpl; [reflexivity | now rewrite IH].
Qed.

Lemma substring_whole (s : string) : substring 0 (String.length s) s = s.
Proof.
  induction s as [|c s IH]; simpl; [reflexivity | now rewrite IH].
Qed.

Lemma substring_after (a b : string) :
  substring (String.length a) (String.length b) (a ++ b) = b.
Proof.
  induction a as [|c a IH]; simpl; [apply substring_whole | exact IH].
Qed.

Lemma length_slice (n : nat) (s : string) :
  n <= String.length s -> String.length (substring 0 n s) = n.
Proof.
  revert s; induction n as [|n IH]; intros [|c s] Hle; simpl in *;
    try reflexivity; try lia.
  rewrite IH; [reflexivity | lia].
Qed.

Lemma endswith_app (a b : string) : PyStr.endswith (a ++ b) b = true.
Proof.
  unfold PyStr.endswith. rewrite length_app.
  replace (String.length a + String.length b - String.length b)
    with (String.length a) by lia.
  rewrite substring_after, String.eqb_refl, andb_true_r.
  apply Nat.leb_le; lia.
Qed.

End StringFacts.

(** C4. [_truncate_markdown] is a function of its text alone (the product
    name does not matter); the limit is 280,000 characters; a text of at
    most that length comes back unchanged; a longer text comes back as its
    first 280,000 characters followed by the truncation marker, a string
    of length limit plus marker length that ends in the marker. *)
Theorem truncate_markdown_spec (markdown_content product_name : string) :
  MAX_MARKDOWN_CONTEXT_CHARS = 280000%N /\
  (forall other_name,
      _truncate_markdown markdown_content other_name
      = _truncate_markdown markdown_content product_name) /\
  ((PyStr.len markdown_content <= MAX_MARKDOWN_CONTEXT_CHARS)%N ->
     _truncate_markdown markdown_content product_name = markdown_content) /\
  ((MAX_MARKDOWN_CONTEXT_CHARS < PyStr.len markdown_content)%N ->
     let head := substring 0 (N.to_nat MAX_MARKDOWN_CONTEXT_CHARS) markdown_content in
     _truncate_markdown markdown_content product_name = head ++ TRUNCATION_MARKER
     /\ PyStr.len head = MAX_MARKDOWN_CONTEXT_CHARS
     /\ PyStr.len (_truncate_markdown markdown_content product_name)
        = (MAX_MARKDOWN_CONTEXT_CHARS + PyStr.len TRUNCATION_MARKER)%N
     /\ PyStr.endswith (_truncate_markdown markdown_content product_name)
          TRUNCATION_MARKER = true).
Proof.
  split; [reflexivity|]. split; [reflexivity|].
  unfold _truncate_markdown, PyStr.len.
  generalize MAX_MARKDOWN_CONTEXT_CHARS as limit. intros limit.
  split; intros Hlen.
  - destruct (N.ltb_spec limit (N.of_nat (String.length markdown_content)));
      [lia | reflexivity].
  - destruct (N.ltb_spec limit (N.of_nat (String.length markdown_content)));
      [|lia].
    cbv zeta.
    assert (Hhead : String.length (substring 0 (N.to_nat limit) markdown_content)
                    = N.to_nat limit) by (apply length_slice; lia).
    repeat split.
    + rewrite Hhead. lia.
    + rewrite length_app, Hhead. lia.
    + apply endswith_app.
Qed.

Lemma length_text_of_length (n : N) : PyStr.len (Scenario.text_of_length n) = n.
Proof.
  unfold PyStr.len, Scenario.text_of_length.
  assert (Hlen : forall l, String.length (string_of_list_ascii l) = List.length l).
  { induction l as [|c l IH]; simpl; [reflexivity | now rewrite IH]. }
  rewrite Hlen, repeat_length. lia.
Qed.

(** C4 at a short text and at a text one character over the limit. *)
Lemma truncate_markdown_spec_witness :
  _truncate_markdown "Dental care: 500 CHF a year." "AlphaCare"
  = "Dental care: 500 CHF a year."
  /\ PyStr.len (_truncate_markdown (Scenario.text_of_length 280001) "AlphaCare")
     = (280000 + 24)%N.
Proof.
  split.
  - apply (truncate_markdown_spec "Dental care: 500 CHF a year." "AlphaCare").
    vm_compute. discriminate.
  - destruct (truncate_markdown_spec (Scenario.text_of_length 280001) "AlphaCare")
      as (_ & _ & _ & Hlong).
    apply Hlong. rewrite length_text_of_length. reflexivity.
Defined.

(* ===================================================================== *)
(** * Properties of the category-scoped extractor *)
(* ===================================================================== *)

Section ExtractorFacts.
Context `{Collaborators}.

Variables (product_name product_markdown_truncated model_choice : string).
Variable all_questions : list Question.t.

Local Abbreviation run_categories :=
  (extract_categories product_name product_markdown_truncated model_choice
     all_questions).
Local Abbreviation run_category :=
  (extract_category product_name product_markdown_truncated model_choice
     all_questions).

Lemma truthy_strip (s : string) :
  PyStr.truthy (PyStr.strip s) = true -> PyStr.truthy s = true.
Proof. destruct s; simpl; [discriminate | reflexivity]. Qed.

(** The text provider never hands out an empty text. *)
Lemma provider_text_truthy (name md : string) :
  _get_full_markdown_for_product name = Some md -> PyStr.truthy md = true.
Proof.
  unfold _get_full_markdown_for_product.
  destruct (load_product_config _) as [cfg|]; [|discriminate].
  destruct (ProductConfig.markdown_document_infos cfg) as [infos|]; [|discriminate].
  destruct (PyStr.truthy (PyStr.strip _)) eqn:Hstrip; [|discriminate].
  intros [= <-]. now apply truthy_strip.
Qed.

(** The accumulator of the category loop only ever grows at its end. *)
Lemma extract_categories_acc (categories : list string) :
  forall (acc : list AnswerRecord.t) (w : World),
    run_categories categories acc w
    = ((acc ++ fst (run_categories categories [] w))%list,
       snd (run_categories categories [] w)).
Proof.
  induction categories as [|c cs IH]; intros acc w; simpl.
  - unfold ret; simpl. now rewrite app_nil_r.
  - unfold bind.
    destruct (extract_category _ _ _ _ c w) as [appended w1].
    rewrite (IH (acc ++ appended)%list w1), (IH appended w1).
    simpl. now rewrite app_assoc.
Qed.

(** One turn of the loop, then the rest. *)
Lemma extract_categories_cons (c : string) (cs : list string) (w : World) :
  run_categories (c :: cs) [] w
  = ((fst (run_category c w)
        ++ fst (run_categories cs [] (snd (run_category c w))))%list,
     snd (run_categories cs [] (snd (run_category c w)))).
Proof.
  simpl. unfold bind.
  destruct (extract_category _ _ _ _ c w) as [appended w1]. simpl.
  apply extract_categories_acc.
Qed.



(** Whatever the gateway does, the records a category appends are those
    of its questions, in order, tagged with the category. *)
Lemma extract_category_keys (category : string) (w : World) :
  map answer_key (fst (run_category category w))
  = map (fun q => (Question.id q, category))
        (questions_for_category category all_questions).
Proof.
  unfold extract_category.
  destruct (questions_for_category category all_questions) as [|q qs] eqn:Hqs;
    [reflexivity|].
  unfold bind, ret, parse_category_response.
  destruct (_call_llm_with_retry _ _ _ _ w) as [[response|] w'];
    [destruct (PyStr.truthy response);
       [destruct (decode_response response) as [[]|]|]|];
    cbn [fst]; rewrite map_map; reflexivity.
Qed.

Lemma extract_categories_keys (categories : list string) :
  forall w : World,
    map answer_key (fst (run_categories categories [] w))
    = flat_map (fun category =>
                  map (fun q => (Question.id q, category))
                      (questions_for_category category all_questions))
               categories.
Proof.
  induction categories as [|c cs IH]; intros w.
  - reflexivity.
  - rewrite extract_categories_cons. simpl fst.
    rewrite map_app, extract_category_keys, IH. reflexivity.
Qed.

(** With a gateway whose replies do not depend on its history, neither
    do the answers: a category's records are the same wherever in the run
    the category comes, whatever happened to the categories before it. *)
Lemma retry_attempts_history_free (n : nat) (messages : list Message.t)
    (model : string) (max_tokens : N) :
  history_free_gateway ->
  forall w w',
    fst (retry_attempts n messages model max_tokens w)
    = fst (retry_attempts n messages model max_tokens w').
Proof.
  intros Hfree. induction n as [|n IH]; intros w w'; [reflexivity|].
  simpl. unfold bind, call_llm.
  pose proof (Hfree (Request.mk messages model true max_tokens)
                (gateway w) (gateway w')) as Hreply.
  destruct (gateway_reply _ (gateway w)) as [reply g].
  destruct (gateway_reply _ (gateway w')) as [reply' g'].
  simpl in Hreply. subst reply'.
  destruct reply as [response| |]; try apply IH.
  destruct (PyStr.truthy response); [|apply IH].
  destruct (json_shaped (PyStr.strip response)); [reflexivity | apply IH].
Qed.

Lemma extract_category_history_free (category : string) :
  history_free_gateway ->
  forall w w', fst (run_category category w) = fst (run_category category w').
Proof.
  intros Hfree w w'. unfold extract_category.
  destruct (questions_for_category category all_questions) as [|q qs];
    [reflexivity|].
  unfold bind, _call_llm_with_retry.
  pose proof (retry_attempts_history_free MAX_LLM_RETRIES
                (extraction_messages product_name category
                   product_markdown_truncated (q :: qs))
                model_choice 32000 Hfree w w') as Hsame.
  destruct (retry_attempts _ _ _ _ w) as [response w1].
  destruct (retry_attempts _ _ _ _ w') as [response' w1'].
  simpl in Hsame. subst response'.
  destruct response as [response|]; [|reflexivity].
  now destruct (PyStr.truthy response).
Qed.

Lemma extract_categories_history_free (categories : list string) :
  history_free_gateway ->
  forall w w',
    fst (run_categories categories [] w) = fst (run_categories categories [] w').
Proof.
  intros Hfree. induction categories as [|c cs IH]; intros w w';
    [reflexivity|].
  rewrite !extract_categories_cons. cbn [fst].
  rewrite (extract_category_history_free c Hfree w w').
  f_equal. apply IH.
Qed.

End ExtractorFacts.

Section ListFacts.

(** A function whose images over a list are pairwise distinct is
    injective on that list. *)
Lemma NoDup_map_injective {A B} (f : A -> B) (l : list A) :
  NoDup (map f l) ->
  forall x y, In x l -> In y l -> f x = f y -> x = y.
Proof.
  induction l as [|a l IH]; simpl; intros Hnd x y Hx Hy Hxy; [contradiction|].
  inversion Hnd as [|? ? Hnotin Hnd']; subst.
  destruct Hx as [<-|Hx], Hy as [<-|Hy]; try reflexivity.
  - exfalso. apply Hnotin. rewrite Hxy. now apply in_map.
  - exfalso. apply Hnotin. rewrite <- Hxy. now apply in_map.
  - now apply IH.
Qed.

(** Distinct categories and distinct question ids give distinct
    (question id, category) pairs over the whole run. *)
Lemma NoDup_category_keys (categories : list string) (all_questions : list Question.t) :
  NoDup categories ->
  NoDup (map Question.id all_questions) ->
  NoDup (flat_map (fun category =>
                     map (fun q => (Question.id q, category))
                         (questions_for_category category all_questions))
                  categories).
Proof.
  intros Hcats Hids.
  induction Hcats as [|c cs Hnotin Hcs IH]; simpl; [constructor|].
  apply NoDup_app; [| exact IH |].
  - apply NoDup_map_NoDup_ForallPairs.
    + intros q q' Hq Hq' [= Hid].
      apply filter_In in Hq, Hq'.
      apply (NoDup_map_injective Question.id all_questions Hids); tauto.
    + apply NoDup_filter. exact (NoDup_map_inv _ _ Hids).
  - intros [i c'] Hin Hin'.
    apply in_map_iff in Hin. destruct Hin as (q & [= _ <-] & _).
    apply in_flat_map in Hin'. destruct Hin' as (c'' & Hc'' & Hin').
    apply in_map_iff in Hin'. destruct Hin' as (q' & [= _ <-] & _).
    contradiction.
Qed.

End ListFacts.

Section ExtractorClaims.
Context `{Collaborators}.

(** A response the retrying caller hands over is never empty. *)
Lemma retry_attempts_accepts_truthy (n : nat) (messages : list Message.t)
    (model : string) (max_tokens : N) :
  forall w response w',
    retry_attempts n messages model max_tokens w = (Some response, w') ->
    PyStr.truthy response = true /\ json_shaped (PyStr.strip response) = true.
Proof.
  induction n as [|n IH]; intros w response w'; simpl.
  - unfold ret. discriminate.
  - unfold bind. destruct (call_llm _ _ _ _ w) as [[r| |] w1]; try apply IH.
    destruct (PyStr.truthy r) eqn:Htruthy; [|apply IH].
    destruct (json_shaped (PyStr.strip r)) eqn:Hshape; [|apply IH].
    unfold ret. intros [= <- <-]. now split.
Qed.

(** C5. When the text provider has nothing for the product, extraction
    fails with [None], the world is left as it was, so that no request
    reaches the gateway, and the failure carries no answer record. *)
Theorem extract_without_document_text
    (product_name : string) (questions_config : QuestionsConfig.t)
    (extract_by_category : bool) (model_choice : string) (w : World) :
  _get_full_markdown_for_product product_name = None ->
  extract_answers_for_product product_name questions_config extract_by_category
    model_choice w = (None, w)
  /\ llm_calls
       (snd (extract_answers_for_product product_name questions_config
               extract_by_category model_choice w))
     = llm_calls w.
Proof.
  intros Habsent. unfold extract_answers_for_product.
  rewrite Habsent. unfold ret. now split.
Qed.

(** What the extractor returns once the text is there and both lists of
    the configuration are non-empty. *)
Lemma extract_by_category_unfold
    (product_name : string) (questions_config : QuestionsConfig.t)
    (model_choice md : string) (w : World) :
  _get_full_markdown_for_product product_name = Some md ->
  QuestionsConfig.categories questions_config <> [] ->
  QuestionsConfig.questions questions_config <> [] ->
  extract_answers_for_product product_name questions_config true model_choice w
  = (Some (ProductExtractionResult.mk product_name
             (fst (extract_categories product_name
                     (_truncate_markdown md product_name) model_choice
                     (QuestionsConfig.questions questions_config)
                     (QuestionsConfig.categories questions_config) [] w))),
     snd (extract_categories product_name
            (_truncate_markdown md product_name) model_choice
            (QuestionsConfig.questions questions_config)
            (QuestionsConfig.categories questions_config) [] w)).
Proof.
  intros Hmd Hcats Hqs. unfold extract_answers_for_product.
  rewrite Hmd, (provider_text_truthy _ _ Hmd).
  destruct (QuestionsConfig.categories questions_config) as [|c cs];
    [contradiction|].
  destruct (QuestionsConfig.questions questions_config) as [|q qs];
    [contradiction|].
  unfold bind, ret. cbn -[extract_categories _truncate_markdown].
  now destruct (extract_categories _ _ _ _ _ _ w).
Qed.



End ExtractorClaims.

Section ExtractorTheorems.
Context `{Collaborators}.



(** C1, as the code has it. With pairwise distinct categories and
    pairwise distinct question ids in the configuration, the answers of a
    successful extraction hold at most one record per pair of question id
    and category; and at most one record per question id when, besides, no
    question applies to two configured categories. *)
Theorem answers_unique_per_question_and_category
    (product_name model_choice : string) (questions_config : QuestionsConfig.t)
    (extract_by_category : bool) (w : World) (result : ProductExtractionResult.t) :
  let categories := QuestionsConfig.categories questions_config in
  let all_questions := QuestionsConfig.questions questions_config in
  NoDup categories ->
  NoDup (map Question.id all_questions) ->
  fst (extract_answers_for_product product_name questions_config
         extract_by_category model_choice w) = Some result ->
  NoDup (map answer_key (ProductExtractionResult.answers result))
  /\ ((forall q c c', In q all_questions -> In c categories -> In c' categories ->
         applies_to c q = true -> applies_to c' q = true -> c = c') ->
      NoDup (map AnswerRecord.question_id (ProductExtractionResult.answers result))).
Proof.
  intros categories all_questions Hcats Hids Hrun.
  assert (Hinj := NoDup_map_injective Question.id all_questions Hids).
  unfold extract_answers_for_product in Hrun.
  destruct (_get_full_markdown_for_product product_name) as [md|];
    [|discriminate].
  destruct (negb (PyStr.truthy md)); [discriminate|].
  fold categories all_questions in Hrun.
  destruct (negb (nonempty categories) || negb (nonempty all_questions)).
  { injection Hrun as <-. simpl. split; [constructor | intros _; constructor]. }
  destruct extract_by_category.
  - unfold bind, ret in Hrun.
    pose proof (extract_categories_keys product_name
                  (_truncate_markdown md product_name) model_choice
                  all_questions categories w) as Hkeys.
    destruct (extract_categories _ _ _ _ categories [] w) as [answers w'].
    injection Hrun as <-. cbn [fst ProductExtractionResult.answers] in *.
    assert (Hnd : NoDup (map answer_key answers)).
    { rewrite Hkeys. now apply NoDup_category_keys. }
    split; [exact Hnd|]. intros Hone.
    replace (map AnswerRecord.question_id answers)
      with (map fst (map answer_key answers)) by (now rewrite map_map).
    apply NoDup_map_NoDup_ForallPairs; [|exact Hnd].
    rewrite Hkeys. intros [i c] [i' c'] Hin Hin' Hfst. simpl in Hfst. subst i'.
    apply in_flat_map in Hin, Hin'.
    destruct Hin as (c0 & Hc0 & Hin), Hin' as (c0' & Hc0' & Hin').
    apply in_map_iff in Hin, Hin'.
    destruct Hin as (q & [= <- <-] & Hq), Hin' as (q' & [= Hid <-] & Hq').
    apply filter_In in Hq, Hq'. destruct Hq as [Hq Hc], Hq' as [Hq' Hc'].
    assert (q' = q) by (now apply Hinj). subst q'.
    f_equal. now apply (Hone q).
  - unfold ret in Hrun. injection Hrun as <-.
    cbn [ProductExtractionResult.answers].
    assert (Hqid : map AnswerRecord.question_id
                     (map not_implemented_record all_questions)
                   = map Question.id all_questions)
      by (rewrite map_map; reflexivity).
    assert (Hnd : NoDup (map AnswerRecord.question_id
                           (map not_implemented_record all_questions)))
      by (now rewrite Hqid).
    split; [|intros _; exact Hnd].
    replace (map AnswerRecord.question_id
               (map not_implemented_record all_questions))
      with (map fst (map answer_key (map not_implemented_record all_questions)))
      in Hnd by (now rewrite !map_map).
    exact (NoDup_map_inv _ _ Hnd).
Qed.

End ExtractorTheorems.

(* ===================================================================== *)
(** * The extractor in the AlphaCare scenario *)
(* ===================================================================== *)

(** C5 at a product the store does not know. *)
Lemma extract_without_document_text_witness :
  extract_answers_for_product "BetaCare" Scenario.dental_config true "o4-mini"
    (Scenario.start [Content Scenario.dental_response])
  = (None, Scenario.start [Content Scenario.dental_response]).
Proof.
  apply (extract_without_document_text "BetaCare" Scenario.dental_config true
           "o4-mini" (Scenario.start [Content Scenario.dental_response])).
  reflexivity.
Defined.


(** The second end-to-end scenario of the specification: the gateway
    answers [not json] on all three attempts. *)
Example not_json_on_every_attempt :
  fst (extract_answers_for_product "AlphaCare" Scenario.dental_config true
         "o4-mini"
         (Scenario.start [Content "not json"; Content "not json";
                          Content "not json"]))
  = Some (ProductExtractionResult.mk "AlphaCare"
            [error_llm_record "Dental" Scenario.q1;
             error_llm_record "Dental" Scenario.q2]).
Proof. reflexivity. Qed.


(** C1, amended, at the one-category configuration. *)
Lemma answers_unique_per_question_and_category_witness :
  match fst (extract_answers_for_product "AlphaCare" Scenario.dental_config true
               "o4-mini" (Scenario.start [Content Scenario.dental_response]))
  with
  | Some result =>
      NoDup (map answer_key (ProductExtractionResult.answers result))
      /\ NoDup (map AnswerRecord.question_id
                  (ProductExtractionResult.answers result))
  | None => False
  end.
Proof.
  destruct (fst (extract_answers_for_product "AlphaCare" Scenario.dental_config
                   true "o4-mini"
                   (Scenario.start [Content Scenario.dental_response])))
    as [result|] eqn:Hrun; [|discriminate Hrun].
  destruct (answers_unique_per_question_and_category "AlphaCare" "o4-mini"
              Scenario.dental_config true
              (Scenario.start [Content Scenario.dental_response]) result)
    as [Hpairs Hids].
  - repeat constructor; simpl; intuition discriminate.
  - repeat constructor; simpl; intuition discriminate.
  - exact Hrun.
  - split; [exact Hpairs|]. apply Hids.
    intros q c c' _ [<-|[]] [<-|[]] _ _. reflexivity.
Defined.

(** C1 fails as stated: a question that applies to two configured
    categories is answered once for each, so its id occurs twice. *)
Lemma shared_question_answered_twice :
  exists result,
    fst (extract_answers_for_product "AlphaCare" Scenario.shared_config true
           "o4-mini"
           (Scenario.start [Content Scenario.partial_response;
                            Content Scenario.partial_response]))
    = Some result
    /\ map answer_key (ProductExtractionResult.answers result)
       = [("q1", "Dental"); ("q1", "Vision")]
    /\ ~ NoDup (map AnswerRecord.question_id
                  (ProductExtractionResult.answers result)).
Proof.
  eexists. split; [reflexivity|]. split; [reflexivity|].
  cbn. intros Hnd. inversion Hnd as [|? ? Hnotin _]; subst.
  apply Hnotin. now left.
Qed.

(* ===================================================================== *)
(** * Properties of the correction applicator *)
(* ===================================================================== *)

Section DictFacts.
Context {V : Type}.
Implicit Types (d : PyDict.t V) (k : string) (v : V).

Lemma get_absent d k : PyDict.get d k = None <-> ~ In k (PyDict.keys d).
Proof.
  induction d as [|[k' v'] d IH]; simpl; [tauto|].
  destruct (String.eqb_spec k' k) as [->|Hne].
  - split; [discriminate | intros Hnot; exfalso; apply Hnot; now left].
  - rewrite IH. tauto.
Qed.

Lemma set_absent d k v :
  PyDict.get d k = None -> PyDict.set d k v = (d ++ [(k, v)])%list.
Proof.
  induction d as [|[k' v'] d IH]; simpl; [reflexivity|].
  destruct (k' =? k)%string; [discriminate|].
  intros Hget. now rewrite IH.
Qed.

Lemma keys_set_present d k v :
  PyDict.get d k <> None -> PyDict.keys (PyDict.set d k v) = PyDict.keys d.
Proof.
  induction d as [|[k' v'] d IH]; simpl; [congruence|].
  destruct (k' =? k)%string; simpl; [reflexivity|].
  intros Hget. now rewrite IH.
Qed.

Lemma keys_set d k v :
  PyDict.keys (PyDict.set d k v)
  = match PyDict.get d k with
    | Some _ => PyDict.keys d
    | None => (PyDict.keys d ++ [k])%list
    end.
Proof.
  destruct (PyDict.get d k) eqn:Hget.
  - apply keys_set_present. congruence.
  - rewrite set_absent by assumption. unfold PyDict.keys. now rewrite map_app.
Qed.

Lemma in_keys_set d k v k0 :
  In k0 (PyDict.keys (PyDict.set d k v)) <-> In k0 (PyDict.keys d) \/ k0 = k.
Proof.
  rewrite keys_set. destruct (PyDict.get d k) eqn:Hget.
  - split; [tauto|]. intros [Hin| ->]; [assumption|].
    destruct (in_dec string_dec k (PyDict.keys d)) as [Hin|Hnot]; [assumption|].
    apply get_absent in Hnot. congruence.
  - rewrite in_app_iff. simpl. intuition congruence.
Qed.

Lemma NoDup_keys_set d k v :
  NoDup (PyDict.keys d) -> NoDup (PyDict.keys (PyDict.set d k v)).
Proof.
  intros Hnd. rewrite keys_set. destruct (PyDict.get d k) eqn:Hget;
    [assumption|].
  apply get_absent in Hget.
  apply NoDup_app; [assumption | repeat constructor; simpl; tauto |].
  intros a Ha [<-|[]]. contradiction.
Qed.

Lemma in_set d k v item :
  In item (PyDict.set d k v) -> In item d \/ item = (k, v).
Proof.
  induction d as [|[k' v'] d IH]; simpl.
  - intros [<-|[]]. now right.
  - destruct (String.eqb_spec k' k) as [->|Hne]; simpl.
    + intros [<-|Hin]; [now right | left; now right].
    + intros [<-|Hin]; [left; now left|].
      destruct (IH Hin); [left; now right | now right].
Qed.

End DictFacts.

Section ApplicatorFacts.

Implicit Types (d : PyDict.t AnswerRecord.t) (correction : Correction.t).

Lemma keys_map_correct_item correction d :
  PyDict.keys (map (correct_item correction) d) = PyDict.keys d.
Proof.
  unfold PyDict.keys. rewrite map_map. apply map_ext. intros item.
  unfold correct_item. destruct (Correction.question_id correction); [|reflexivity].
  now destruct (fst item =? s)%string.
Qed.

(** A correction leaves alone the items filed under other keys. *)
Lemma correct_item_other_keys correction d q_id :
  Correction.question_id correction = Some q_id ->
  ~ In q_id (PyDict.keys d) ->
  map (correct_item correction) d = d.
Proof.
  intros Hq Hnot. rewrite <- (map_id d) at 2. apply map_ext_in.
  intros item Hin. unfold correct_item. rewrite Hq.
  destruct (String.eqb_spec (fst item) q_id) as [Heq|]; [|reflexivity].
  exfalso. apply Hnot. rewrite <- Heq. unfold PyDict.keys. now apply in_map.
Qed.

(** On a map without repeated keys, one turn of the correction loop acts
    item by item. *)
Lemma apply_correction_itemwise correction d :
  NoDup (PyDict.keys d) ->
  apply_correction d correction = map (correct_item correction) d.
Proof.
  unfold apply_correction.
  destruct (Correction.question_id correction) as [q_id|] eqn:Hq.
  2:{ intros _. rewrite <- (map_id d) at 1. apply map_ext.
      intros item. unfold correct_item. now rewrite Hq. }
  induction d as [|[k v] d IH]; intros Hnd; [reflexivity|].
  inversion Hnd as [|? ? Hnotin Hnd']; subst.
  simpl. unfold correct_item at 1. rewrite Hq. simpl fst. simpl snd.
  destruct (String.eqb_spec k q_id) as [->|Hne].
  - now rewrite (correct_item_other_keys correction d q_id).
  - specialize (IH Hnd').
    destruct (PyDict.get d q_id) as [ans|] eqn:Hget.
    + simpl. destruct (String.eqb_spec k q_id); [contradiction|].
      now rewrite IH.
    + now rewrite <- IH.
Qed.

(** So does the whole loop. *)
Lemma corrections_itemwise (corrections_list : list Correction.t) :
  forall d,
    NoDup (PyDict.keys d) ->
    fold_left apply_correction corrections_list d
    = map (correct_all corrections_list) d.
Proof.
  induction corrections_list as [|c cs IH]; intros d Hnd; simpl.
  - unfold correct_all. simpl. now rewrite map_id.
  - rewrite apply_correction_itemwise by assumption.
    rewrite IH by (now rewrite keys_map_correct_item).
    rewrite map_map. reflexivity.
Qed.

Lemma same_base_refl x : same_base x x.
Proof. now repeat split. Qed.

Lemma same_base_trans x y z : same_base x y -> same_base y z -> same_base x z.
Proof. unfold same_base. intuition congruence. Qed.

Lemma correct_item_same_base correction x : same_base x (correct_item correction x).
Proof.
  unfold correct_item. destruct (Correction.question_id correction);
    [|apply same_base_refl].
  destruct (fst x =? s)%string; [|apply same_base_refl]. now repeat split.
Qed.

Lemma correct_all_same_base (corrections_list : list Correction.t) :
  forall x, same_base x (correct_all corrections_list x).
Proof.
  induction corrections_list as [|c cs IH]; intros x; [apply same_base_refl|].
  eapply same_base_trans; [apply (correct_item_same_base c)|apply IH].
Qed.

(** Two items with the same base either end up equal or are both left
    untouched by the corrections. *)
Lemma correct_all_merges (corrections_list : list Correction.t) :
  forall x y,
    same_base x y ->
    correct_all corrections_list x = correct_all corrections_list y
    \/ (correct_all corrections_list x = x /\ correct_all corrections_list y = y).
Proof.
  induction corrections_list as [|c cs IH]; intros x y Hbase; [now right|].
  change (correct_all (c :: cs) x) with (correct_all cs (correct_item c x)).
  change (correct_all (c :: cs) y) with (correct_all cs (correct_item c y)).
  unfold correct_item.
  destruct (Correction.question_id c) as [q_id|]; [|now apply IH].
  destruct Hbase as (Hkey & Hid & Htext & Hcat). rewrite <- Hkey.
  destruct (fst x =? q_id)%string; [|apply IH; now repeat split].
  left. f_equal. unfold corrected_record. now rewrite Hkey, Hid, Htext, Hcat.
Qed.

(** Item by item, correcting twice is correcting once. *)
Lemma correct_all_idempotent (corrections_list : list Correction.t) x :
  correct_all corrections_list (correct_all corrections_list x)
  = correct_all corrections_list x.
Proof.
  destruct (correct_all_merges corrections_list x
              (correct_all corrections_list x)
              (correct_all_same_base corrections_list x)) as [Heq|[_ Hfix]].
  - now rewrite <- Heq.
  - exact Hfix.
Qed.

Lemma well_keyed_set d ans :
  well_keyed d -> well_keyed (PyDict.set d (AnswerRecord.question_id ans) ans).
Proof.
  intros [Hnd Hcons]. split; [now apply NoDup_keys_set|].
  rewrite Forall_forall in *. intros item Hin.
  apply in_set in Hin. destruct Hin as [Hin| ->]; [now apply Hcons | reflexivity].
Qed.

Lemma well_keyed_fold (original_answers : list AnswerRecord.t) :
  forall d,
    well_keyed d ->
    well_keyed (fold_left (fun m ans => PyDict.set m (AnswerRecord.question_id ans) ans)
                  original_answers d).
Proof.
  induction original_answers as [|a l IH]; intros d Hd; simpl; [assumption|].
  apply IH. now apply well_keyed_set.
Qed.

Lemma well_keyed_answers_map (original_answers : list AnswerRecord.t) :
  well_keyed (answers_map original_answers).
Proof.
  apply well_keyed_fold. split; constructor.
Qed.

Lemma well_keyed_correct_all (corrections_list : list Correction.t) d :
  well_keyed d -> well_keyed (map (correct_all corrections_list) d).
Proof.
  intros [Hnd Hcons]. split.
  - replace (PyDict.keys (map (correct_all corrections_list) d))
      with (PyDict.keys d); [assumption|].
    unfold PyDict.keys. rewrite map_map. apply map_ext.
    intros x. apply (correct_all_same_base corrections_list x).
  - rewrite Forall_forall in *. intros item Hin.
    apply in_map_iff in Hin. destruct Hin as (x & <- & Hx).
    destruct (correct_all_same_base corrections_list x) as (Hkey & Hid & _).
    rewrite <- Hkey, <- Hid. now apply Hcons.
Qed.

(** The keys of the answers map are the question ids of the answers. *)
Lemma in_keys_fold (original_answers : list AnswerRecord.t) q_id :
  forall d,
    In q_id (PyDict.keys
               (fold_left (fun m ans => PyDict.set m (AnswerRecord.question_id ans) ans)
                  original_answers d))
    <-> In q_id (PyDict.keys d)
        \/ In q_id (map AnswerRecord.question_id original_answers).
Proof.
  induction original_answers as [|a l IH]; intros d; simpl; [tauto|].
  rewrite IH, in_keys_set. intuition congruence.
Qed.

Lemma in_keys_answers_map (original_answers : list AnswerRecord.t) q_id :
  In q_id (PyDict.keys (answers_map original_answers))
  <-> In q_id (map AnswerRecord.question_id original_answers).
Proof.
  unfold answers_map. rewrite in_keys_fold. simpl. tauto.
Qed.

(** With pairwise distinct question ids the map lists the answers as
    they came. *)
Lemma fold_set_distinct (original_answers : list AnswerRecord.t) :
  forall d,
    NoDup (PyDict.keys d ++ map AnswerRecord.question_id original_answers) ->
    fold_left (fun m ans => PyDict.set m (AnswerRecord.question_id ans) ans)
      original_answers d
    = (d ++ map (fun ans => (AnswerRecord.question_id ans, ans)) original_answers)%list.
Proof.
  induction original_answers as [|a l IH]; intros d Hnd; simpl.
  - now rewrite app_nil_r.
  - assert (Hnew : PyDict.get d (AnswerRecord.question_id a) = None).
    { apply get_absent. intros Hin.
      apply NoDup_remove_2 in Hnd. apply Hnd, in_or_app. now left. }
    rewrite set_absent by assumption. rewrite IH.
    + now rewrite <- app_assoc.
    + unfold PyDict.keys. rewrite map_app. simpl.
      rewrite <- app_assoc. exact Hnd.
Qed.

Lemma answers_map_distinct (original_answers : list AnswerRecord.t) :
  NoDup (map AnswerRecord.question_id original_answers) ->
  answers_map original_answers
  = map (fun ans => (AnswerRecord.question_id ans, ans)) original_answers.
Proof.
  intros Hnd. unfold answers_map. now rewrite fold_set_distinct.
Qed.

(** Reading the values of a well-keyed map and filing them again gives
    the same map. *)
Lemma answers_map_values d :
  well_keyed d -> answers_map (PyDict.values d) = d.
Proof.
  intros [Hnd Hcons].
  assert (Hids : map AnswerRecord.question_id (PyDict.values d) = PyDict.keys d).
  { unfold PyDict.values, PyDict.keys. rewrite map_map.
    apply map_ext_in. intros item Hin.
    rewrite Forall_forall in Hcons. now apply Hcons. }
  rewrite answers_map_distinct by (now rewrite Hids).
  unfold PyDict.values. rewrite map_map.
  rewrite <- (map_id d) at 2. apply map_ext_in. intros [k v] Hin.
  rewrite Forall_forall in Hcons. specialize (Hcons _ Hin). simpl in *.
  now rewrite Hcons.
Qed.

(** The applicator, item by item. *)
Lemma apply_corrections_itemwise (original_answers : list AnswerRecord.t)
    (corrections_list : list Correction.t) (product_name : string) :
  apply_corrections original_answers corrections_list product_name
  = PyDict.values (map (correct_all corrections_list) (answers_map original_answers)).
Proof.
  unfold apply_corrections. rewrite corrections_itemwise; [reflexivity|].
  apply well_keyed_answers_map.
Qed.

End ApplicatorFacts.

Section ApplicatorTheorems.


(** C8. Applying the same corrections a second time changes nothing: the
    list is the same, so for every question id the answer, the status and
    the correction reason are those of the first application. *)
Theorem apply_corrections_twice
    (original_answers : list AnswerRecord.t)
    (corrections_list : list Correction.t) (product_name : string) :
  let once := apply_corrections original_answers corrections_list product_name in
  let twice := apply_corrections once corrections_list product_name in
  twice = once
  /\ forall q_id,
       map (fun r => (AnswerRecord.answer r, AnswerRecord.status r,
                      AnswerRecord.correction_reason r))
           (filter (fun r => (AnswerRecord.question_id r =? q_id)%string) twice)
       = map (fun r => (AnswerRecord.answer r, AnswerRecord.status r,
                        AnswerRecord.correction_reason r))
             (filter (fun r => (AnswerRecord.question_id r =? q_id)%string) once).
Proof.
  intros once twice.
  assert (Heq : twice = once).
  { subst once twice. rewrite !apply_corrections_itemwise.
    rewrite answers_map_values
      by (apply well_keyed_correct_all, well_keyed_answers_map).
    rewrite map_map. f_equal. apply map_ext. intros item.
    apply correct_all_idempotent. }
  split; [exact Heq|]. intros q_id. now rewrite Heq.
Qed.

(** The key of an item is a question id of the original answers, and no
    correction changes it. *)
Lemma correct_item_unknown_target correction (item : string * AnswerRecord.t)
    (original_answers : list AnswerRecord.t) :
  In (fst item) (map AnswerRecord.question_id original_answers) ->
  (forall q_id, Correction.question_id correction = Some q_id ->
                ~ In q_id (map AnswerRecord.question_id original_answers)) ->
  correct_item correction item = item.
Proof.
  intros Hin Hunknown. unfold correct_item.
  destruct (Correction.question_id correction) as [q_id|]; [|reflexivity].
  destruct (String.eqb_spec (fst item) q_id) as [Heq|]; [|reflexivity].
  exfalso. apply (Hunknown q_id eq_refl). now rewrite <- Heq.
Qed.

(** On corrections whose fields are strings, the question ids of the
    result are exactly those of the original answers; and a correction
    whose question id is not among them (or is missing) is dropped: the
    result is the one obtained without it. *)
Theorem apply_corrections_keeps_question_ids
    (original_answers : list AnswerRecord.t)
    (corrections_list : list Correction.t) (product_name : string) :
  (forall q_id,
      In q_id (map AnswerRecord.question_id
                 (apply_corrections original_answers corrections_list product_name))
      <-> In q_id (map AnswerRecord.question_id original_answers))
  /\ (forall before correction after,
        corrections_list = (before ++ correction :: after)%list ->
        (forall q_id, Correction.question_id correction = Some q_id ->
                      ~ In q_id (map AnswerRecord.question_id original_answers)) ->
        apply_corrections original_answers corrections_list product_name
        = apply_corrections original_answers (before ++ after)%list product_name).
Proof.
  split.
  - intros q_id. rewrite apply_corrections_itemwise.
    destruct (well_keyed_correct_all corrections_list _
                (well_keyed_answers_map original_answers)) as [_ Hcons].
    assert (Hids : map AnswerRecord.question_id
                     (PyDict.values (map (correct_all corrections_list)
                                       (answers_map original_answers)))
                   = PyDict.keys (map (correct_all corrections_list)
                                    (answers_map original_answers))).
    { unfold PyDict.values, PyDict.keys. rewrite map_map.
      apply map_ext_in. intros item Hin.
      rewrite Forall_forall in Hcons. now apply Hcons. }
    rewrite Hids.
    replace (PyDict.keys (map (correct_all corrections_list)
                            (answers_map original_answers)))
      with (PyDict.keys (answers_map original_answers)).
    2:{ unfold PyDict.keys. rewrite map_map. apply map_ext. intros item.
        apply (correct_all_same_base corrections_list item). }
    apply in_keys_answers_map.
  - intros before correction after -> Hunknown.
    rewrite !apply_corrections_itemwise. f_equal.
    apply map_ext_in. intros item Hin.
    unfold correct_all. rewrite !fold_left_app. simpl.
    fold (correct_all before item).
    rewrite (correct_item_unknown_target correction _ original_answers);
      [reflexivity | | exact Hunknown].
    destruct (correct_all_same_base before item) as (<- & _).
    apply in_keys_answers_map. unfold PyDict.keys. now apply in_map.
Qed.

End ApplicatorTheorems.

(* ===================================================================== *)
(** * The applicator in the AlphaCare scenario *)
(* ===================================================================== *)



(** A correction for the unknown question id [q9] changes nothing. *)
Lemma apply_corrections_keeps_question_ids_witness :
  apply_corrections [Scenario.r1; Scenario.r2] [Scenario.c9; Scenario.c1] "AlphaCare"
  = apply_corrections [Scenario.r1; Scenario.r2] [Scenario.c1] "AlphaCare".
Proof.
  apply (apply_corrections_keeps_question_ids [Scenario.r1; Scenario.r2]
           [Scenario.c9; Scenario.c1] "AlphaCare")
    with (before := []) (correction := Scenario.c9) (after := [Scenario.c1]).
  - reflexivity.
  - intros q_id [= <-]. simpl. intuition discriminate.
Defined.

(* ===================================================================== *)
(** * Properties of the self-correction reviewer *)
(* ===================================================================== *)

Section ReviewerFacts.
Context `{Collaborators}.

(** An item passes the filter exactly when it is an object that has the
    four required keys. *)
Lemma valid_correction_item_spec (item : json) :
  valid_correction_item item = true
  <-> exists d, item = JObj d
                /\ forall k, In k REQUIRED_CORRECTION_KEYS -> PyDict.mem d k = true.
Proof.
  unfold valid_correction_item. split.
  - destruct item; try discriminate. rewrite forallb_forall. intros Hall.
    eexists. split; [reflexivity | exact Hall].
  - intros (d & -> & Hall). now apply forallb_forall.
Qed.

(** On a decoded object the reviewer does what the specification says:
    failure when the key [corrections] is missing or is not an array,
    otherwise the array filtered to the valid items, an empty list
    included. *)
Lemma review_response_object (response_str : string) (d : PyDict.t json) :
  decode_response response_str = Some (JObj d) ->
  review_response response_str
  = match PyDict.get d "corrections" with
    | Some (JArr corrections_list) =>
        inr (Some (filter valid_correction_item corrections_list))
    | Some _ | None => inr None
    end.
Proof.
  intros Hdecode. unfold review_response, review_try. rewrite Hdecode.
  unfold review_decoded, corrections_malformed. simpl. unfold PyDict.mem.
  destruct (PyDict.get d "corrections") as [[]|]; reflexivity.
Qed.

(** A decoded array that does not hold the string [corrections] is a
    failure as well. *)
Lemma review_response_plain_array (response_str : string) (items : list json) :
  decode_response response_str = Some (JArr items) ->
  existsb (fun x => PyJson.eq_str x "corrections") items = false ->
  review_response response_str = inr None.
Proof.
  intros Hdecode Hnone. unfold review_response, review_try. rewrite Hdecode.
  unfold review_decoded, corrections_malformed. simpl. now rewrite Hnone.
Qed.

(** C3, where the code departs from it. When the response the retrying
    caller accepted decodes to an array that holds the string
    [corrections], the membership test succeeds, the subscript that
    follows raises [TypeError], the handler does not catch it, and the
    exception leaves [self_correct_answers]. *)
Theorem self_correct_answers_type_error_escapes
    (product_name model_choice md response_str : string)
    (extracted_answers : list AnswerRecord.t) (items : list json)
    (w w_called : World) :
  _get_full_markdown_for_product product_name = Some md ->
  _call_llm_with_retry
    (review_messages product_name (_truncate_markdown md product_name)
       extracted_answers)
    model_choice 32000 MAX_LLM_RETRIES w
  = (Some response_str, w_called) ->
  decode_response response_str = Some (JArr items) ->
  In (JStr "corrections") items ->
  self_correct_answers product_name extracted_answers model_choice w
  = (inl TypeError, w_called).
Proof.
  intros Hmd Hcall Hdecode Hin.
  unfold self_correct_answers.
  rewrite Hmd, (provider_text_truthy _ _ Hmd). cbn [negb].
  unfold bind. rewrite Hcall.
  destruct (retry_attempts_accepts_truthy _ _ _ _ _ _ _ Hcall) as [-> _].
  unfold ret, review_response, review_try. rewrite Hdecode.
  unfold review_decoded, corrections_malformed. simpl.
  assert (Hfound : existsb (fun x => PyJson.eq_str x "corrections") items = true).
  { apply existsb_exists. exists (JStr "corrections"). now split. }
  now rewrite Hfound.
Qed.

End ReviewerFacts.

(** C10, where the code departs from it. The array [["corrections"]] has
    no top-level key, so the specification asks for a failure; the
    validation raises [TypeError] instead, which the handler of the [try]
    block lets through. *)
Theorem review_decoded_keyless_array_raises :
  review_decoded (JArr [JStr "corrections"]) = inl TypeError
  /\ caught_by_parse_handler TypeError = false
  /\ PyJson.is_dict (JArr [JStr "corrections"]) = false.
Proof. repeat split. Qed.

(** C3's failing run in the scenario: the gateway answers
    [["corrections"]], the retrying caller accepts it at the first
    attempt, and the review ends in [TypeError]. *)
Lemma self_correct_answers_type_error_escapes_witness :
  json_shaped (PyStr.strip Scenario.array_response) = true
  /\ fst (self_correct_answers "AlphaCare" [Scenario.r1; Scenario.r2] "o4-mini"
            (Scenario.start [Content Scenario.array_response]))
     = inl TypeError.
Proof.
  split; [reflexivity|].
  erewrite (self_correct_answers_type_error_escapes "AlphaCare" "o4-mini"
              Scenario.alpha_text Scenario.array_response
              [Scenario.r1; Scenario.r2] [JStr "corrections"]
              (Scenario.start [Content Scenario.array_response])).
  - reflexivity.
  - reflexivity.
  - reflexivity.
  - reflexivity.
  - now left.
Defined.

(** The reviewer on a well-formed response of the scenario: the item with
    the four keys is kept, the item with one key is dropped. *)
Example review_keeps_valid_items :
  fst (self_correct_answers "AlphaCare" [Scenario.r1; Scenario.r2] "o4-mini"
         (Scenario.start [Content Scenario.review_response_text]))
  = inr (Some [Scenario.full_item]).
Proof. reflexivity. Qed.

(* ===================================================================== *)
(** * Properties of filename cleaning *)
(* ===================================================================== *)

Section CleanFilenameFacts.

Lemma isword_not_separator (c : ascii) :
  Utils.isword c = true -> Utils.isseparator c = false.
Proof.
  destruct c as [[] [] [] [] [] [] [] []]; vm_compute; congruence.
Qed.

Lemma kept_not_separator_isword (c : ascii) :
  Utils.iskept c = true -> Utils.isseparator c = false -> Utils.isword c = true.
Proof.
  unfold Utils.iskept. intros Hkept Hsep. rewrite Hsep, orb_false_r in Hkept.
  exact Hkept.
Qed.

Lemma isword_not_space (c : ascii) :
  Utils.isword c = true -> PyStr.isspace c = false.
Proof.
  intros Hword. apply isword_not_separator in Hword.
  unfold Utils.isseparator in Hword. now apply orb_false_iff in Hword.
Qed.

Lemma drop_unsafe_kept (s : string) :
  string_forallb Utils.iskept (Utils.drop_unsafe s) = true.
Proof.
  induction s as [|c s IH]; simpl; [reflexivity|].
  destruct (Utils.iskept c) eqn:Hkept; simpl; [now rewrite Hkept | exact IH].
Qed.

Lemma lstrip_forallb (f : ascii -> bool) (s : string) :
  string_forallb f s = true -> string_forallb f (PyStr.lstrip s) = true.
Proof.
  induction s as [|c s IH]; simpl; [reflexivity|].
  intros Hall. apply andb_true_iff in Hall. destruct Hall as [Hc Hs].
  destruct (PyStr.isspace c); [now apply IH | simpl; now rewrite Hc, Hs].
Qed.

Lemma rstrip_forallb (f : ascii -> bool) (s : string) :
  string_forallb f s = true -> string_forallb f (PyStr.rstrip s) = true.
Proof.
  induction s as [|c s IH]; simpl; [reflexivity|].
  intros Hall. apply andb_true_iff in Hall. destruct Hall as [Hc Hs].
  specialize (IH Hs). destruct (PyStr.rstrip s) as [|c' r].
  - destruct (PyStr.isspace c); simpl; [reflexivity | now rewrite Hc].
  - simpl in *. now rewrite Hc, IH.
Qed.

Lemma strip_forallb (f : ascii -> bool) (s : string) :
  string_forallb f s = true -> string_forallb f (PyStr.strip s) = true.
Proof.
  intros Hall. unfold PyStr.strip. now apply rstrip_forallb, lstrip_forallb.
Qed.

Lemma collapse_separators_word (s : string) :
  string_forallb Utils.iskept s = true ->
  string_forallb Utils.isword (Utils.collapse_separators s) = true.
Proof.
  induction s as [|c s IH]; simpl; [reflexivity|].
  intros Hall. apply andb_true_iff in Hall. destruct Hall as [Hc Hs].
  specialize (IH Hs).
  destruct (Utils.isseparator c) eqn:Hsep.
  - destruct s as [|c' s']; [reflexivity|].
    destruct (Utils.isseparator c'); [exact IH|].
    change (string_forallb Utils.isword
              (String "_" (Utils.collapse_separators (String c' s'))))
      with (Utils.isword "_"
            && string_forallb Utils.isword
                 (Utils.collapse_separators (String c' s'))).
    now rewrite IH.
  - simpl. now rewrite (kept_not_separator_isword c Hc Hsep), IH.
Qed.

(** A string of word characters goes through each of the three steps
    unchanged. *)
Lemma drop_unsafe_word (s : string) :
  string_forallb Utils.isword s = true -> Utils.drop_unsafe s = s.
Proof.
  induction s as [|c s IH]; simpl; [reflexivity|].
  intros Hall. apply andb_true_iff in Hall. destruct Hall as [Hc Hs].
  unfold Utils.iskept. rewrite Hc. simpl. now rewrite IH.
Qed.

Lemma strip_word (s : string) :
  string_forallb Utils.isword s = true -> PyStr.strip s = s.
Proof.
  intros Hall. unfold PyStr.strip.
  assert (Hl : PyStr.lstrip s = s).
  { destruct s as [|c s]; [reflexivity|]. simpl in *.
    apply andb_true_iff in Hall. destruct Hall as [Hc _].
    now rewrite (isword_not_space c Hc). }
  rewrite Hl. clear Hl.
  induction s as [|c s IH]; simpl; [reflexivity|].
  simpl in Hall. apply andb_true_iff in Hall. destruct Hall as [Hc Hs].
  rewrite (IH Hs). destruct s; [|reflexivity].
  now rewrite (isword_not_space c Hc).
Qed.

Lemma collapse_separators_plain (s : string) :
  string_forallb Utils.isword s = true -> Utils.collapse_separators s = s.
Proof.
  induction s as [|c s IH]; simpl; [reflexivity|].
  intros Hall. apply andb_true_iff in Hall. destruct Hall as [Hc Hs].
  now rewrite (isword_not_separator c Hc), IH.
Qed.

Lemma in_string_forallb (f : ascii -> bool) (s : string) (c : ascii) :
  string_forallb f s = true -> In c (list_ascii_of_string s) -> f c = true.
Proof.
  induction s as [|c' s IH]; simpl; [contradiction|].
  intros Hall [<-|Hin]; apply andb_true_iff in Hall; destruct Hall as [Hc Hs];
    [exact Hc | now apply IH].
Qed.

End CleanFilenameFacts.

(** X1. Whatever the name, the cleaned name is made of word characters
    only: no whitespace, no hyphen, no dot, no slash and no backslash
    occurs in it. *)
Theorem clean_filename_word_characters (filename : string) :
  string_forallb Utils.isword (Utils.clean_filename filename) = true
  /\ forall c, In c (list_ascii_of_string (Utils.clean_filename filename)) ->
       PyStr.isspace c = false
       /\ c <> "-"%char /\ c <> "."%char /\ c <> "/"%char /\ c <> "\"%char.
Proof.
  assert (Hword : string_forallb Utils.isword (Utils.clean_filename filename) = true).
  { unfold Utils.clean_filename.
    apply collapse_separators_word, strip_forallb, drop_unsafe_kept. }
  split; [exact Hword|]. intros c Hin.
  pose proof (in_string_forallb _ _ _ Hword Hin) as Hc.
  split; [now apply isword_not_space|].
  repeat split; intros ->; discriminate Hc.
Qed.

(** X2. Cleaning a cleaned name changes nothing. *)
Theorem clean_filename_idempotent (filename : string) :
  Utils.clean_filename (Utils.clean_filename filename)
  = Utils.clean_filename filename.
Proof.
  assert (Hword : string_forallb Utils.isword (Utils.clean_filename filename) = true).
  { unfold Utils.clean_filename.
    apply collapse_separators_word, strip_forallb, drop_unsafe_kept. }
  unfold Utils.clean_filename at 1.
  now rewrite (drop_unsafe_word _ Hword), (strip_word _ Hword),
    (collapse_separators_plain _ Hword).
Qed.

(** X3. A name that has no word character and no hyphen is cleaned to the
    empty string. *)
Theorem clean_filename_empty (filename : string) :
  string_forallb (fun c => negb (Utils.isword c) && negb (c =? "-")%char)
    filename = true ->
  Utils.clean_filename filename = EmptyString.
Proof.
  intros Hnone.
  assert (Hspaces : string_forallb PyStr.isspace (Utils.drop_unsafe filename) = true).
  { induction filename as [|c s IH]; simpl in *; [reflexivity|].
    apply andb_true_iff in Hnone. destruct Hnone as [Hc Hs].
    apply andb_true_iff in Hc. destruct Hc as [Hw Hh].
    apply negb_true_iff in Hw, Hh.
    unfold Utils.iskept, Utils.isseparator. rewrite Hw, Hh. simpl.
    destruct (PyStr.isspace c) eqn:Hsp; simpl; [rewrite Hsp|]; now apply IH. }
  unfold Utils.clean_filename.
  assert (Hl : PyStr.lstrip (Utils.drop_unsafe filename) = EmptyString).
  { induction (Utils.drop_unsafe filename) as [|c s IH]; simpl in *;
      [reflexivity|].
    apply andb_true_iff in Hspaces. destruct Hspaces as [-> Hs]. now apply IH. }
  unfold PyStr.strip. now rewrite Hl.
Qed.

(** X3 at a name made of question marks and spaces. *)
Lemma clean_filename_empty_witness :
  Utils.clean_filename "?? (!) ??" = EmptyString.
Proof.
  apply (clean_filename_empty "?? (!) ??"). reflexivity.
Defined.

(* ===================================================================== *)
(** * Properties of the retrying JSON caller *)
(* ===================================================================== *)

Section RetryFacts.
Context `{Collaborators}.

Variables (messages : list Message.t) (model : string) (max_tokens : N).

Local Abbreviation request := (retry_request messages model max_tokens).

(** The loop against the stream of replies: it returns the first accepted
    reply and has then sent one request per reply read. *)
Lemma retry_attempts_stream (n : nat) :
  forall w,
    fst (retry_attempts n messages model max_tokens w)
    = first_accepted (gateway_replies n request (gateway w))
    /\ llm_calls (snd (retry_attempts n messages model max_tokens w))
       = (llm_calls w
            ++ repeat request
                 (replies_read (gateway_replies n request (gateway w))))%list.
Proof.
  induction n as [|n IH]; intros w.
  - simpl. now rewrite app_nil_r.
  - simpl. unfold bind, call_llm. fold request.
    destruct (gateway_reply request (gateway w)) as [reply g] eqn:Hreply.
    pose proof (IH (mkWorld g (llm_calls w ++ [request])%list)) as [IHres IHcalls].
    cbn [gateway llm_calls] in IHres, IHcalls.
    destruct reply as [response| |];
      cbn [first_accepted replies_read accepted_reply].
    + destruct (PyStr.truthy response); cbn [andb].
      * destruct (json_shaped (PyStr.strip response)).
        -- unfold ret. cbn [fst snd llm_calls repeat]. now split.
        -- rewrite IHres, IHcalls. cbn [repeat]. now rewrite <- app_assoc.
      * rewrite IHres, IHcalls. cbn [repeat]. now rewrite <- app_assoc.
    + rewrite IHres, IHcalls. cbn [repeat]. now rewrite <- app_assoc.
    + rewrite IHres, IHcalls. cbn [repeat]. now rewrite <- app_assoc.
Qed.

Lemma replies_read_bounds (replies : list Reply) :
  replies_read replies <= length replies
  /\ (first_accepted replies = None -> replies_read replies = length replies)
  /\ (replies <> [] -> 1 <= replies_read replies).
Proof.
  induction replies as [|reply replies IH]; simpl.
  - repeat split; [lia | congruence].
  - destruct IH as (Hle & Hnone & _).
    destruct (accepted_reply reply) eqn:Hacc.
    + repeat split; try lia. destruct reply; [discriminate | discriminate..].
    + repeat split; try lia. intros Hn. now rewrite Hnone.
Qed.

Lemma length_gateway_replies (n : nat) (req : Request.t) :
  forall g, length (gateway_replies n req g) = n.
Proof.
  induction n as [|n IH]; intros g; simpl; [reflexivity|].
  destruct (gateway_reply req g) as [reply g']. simpl. now rewrite IH.
Qed.

(** The calls of a retry loop: between one (when there is an attempt to
    make) and [n] copies of the request. *)
Lemma retry_attempts_calls (n : nat) (w : World) :
  exists k,
    k <= n /\ (1 <= n -> 1 <= k)
    /\ (fst (retry_attempts n messages model max_tokens w) = None -> k = n)
    /\ llm_calls (snd (retry_attempts n messages model max_tokens w))
       = (llm_calls w ++ repeat request k)%list.
Proof.
  destruct (retry_attempts_stream n w) as [Hres Hcalls].
  destruct (replies_read_bounds (gateway_replies n request (gateway w)))
    as (Hle & Hnone & Hpos).
  rewrite length_gateway_replies in Hle, Hnone.
  exists (replies_read (gateway_replies n request (gateway w))).
  repeat split; [exact Hle | | | exact Hcalls].
  - intros Hn. apply Hpos. intros Hnil.
    apply (f_equal (@length Reply)) in Hnil.
    rewrite length_gateway_replies in Hnil. simpl in Hnil. lia.
  - intros Hfail. apply Hnone. now rewrite <- Hres.
Qed.

End RetryFacts.

(** X4. The retrying caller returns the first reply of the gateway that
    is non-empty text of the right shape, as the gateway gave it, looking
    at no more than [retries] replies; it sends the same request once per
    reply it looks at and none after the reply it returns. *)
Theorem call_llm_with_retry_first_accepted `{Collaborators}
    (messages : list Message.t) (model : string) (max_tokens : N)
    (retries : nat) (w : World) :
  let request := retry_request messages model max_tokens in
  let replies := gateway_replies retries request (gateway w) in
  let run := _call_llm_with_retry messages model max_tokens retries w in
  fst run = first_accepted replies
  /\ llm_calls (snd run)
     = (llm_calls w ++ repeat request (replies_read replies))%list.
Proof.
  intros request replies run. apply retry_attempts_stream.
Qed.

(** X5. The retrying caller sends at most [retries] requests, all of them
    the same request in JSON mode; it sends at least one when [retries] is
    positive, and exactly [retries] when it gives up with [None]. *)
Theorem call_llm_with_retry_budget `{Collaborators}
    (messages : list Message.t) (model : string) (max_tokens : N)
    (retries : nat) (w : World) :
  let run := _call_llm_with_retry messages model max_tokens retries w in
  exists k,
    llm_calls (snd run)
    = (llm_calls w ++ repeat (Request.mk messages model true max_tokens) k)%list
    /\ k <= retries
    /\ (1 <= retries -> 1 <= k)
    /\ (fst run = None -> k = retries).
Proof.
  intros run.
  destruct (retry_attempts_calls messages model max_tokens retries w)
    as (k & Hle & Hpos & Hnone & Hcalls).
  exists k. repeat split; assumption.
Qed.

(** X6. A response the retrying caller returns is not empty and, once
    stripped, starts with an opening brace and ends with a closing one, or
    starts with an opening bracket and ends with a closing one. *)
Theorem call_llm_with_retry_response_shape `{Collaborators}
    (messages : list Message.t) (model : string) (max_tokens : N)
    (retries : nat) (w w' : World) (response : string) :
  _call_llm_with_retry messages model max_tokens retries w = (Some response, w') ->
  response <> EmptyString
  /\ ((String.prefix "{" (PyStr.strip response) = true
       /\ PyStr.endswith (PyStr.strip response) "}" = true)
      \/ (String.prefix "[" (PyStr.strip response) = true
          /\ PyStr.endswith (PyStr.strip response) "]" = true)).
Proof.
  intros Hrun.
  destruct (retry_attempts_accepts_truthy _ _ _ _ _ _ _ Hrun) as [Htruthy Hshape].
  split; [intros ->; discriminate Htruthy|].
  unfold json_shaped, PyStr.startswith in Hshape.
  apply orb_true_iff in Hshape.
  destruct Hshape as [Hb|Hb]; apply andb_true_iff in Hb; tauto.
Qed.

(* ===================================================================== *)
(** * Properties of the document text provider *)
(* ===================================================================== *)

Section ProviderFacts.
Context `{Collaborators}.

Lemma has_nonspace_app_l (a b : string) :
  has_nonspace a = true -> has_nonspace (a ++ b) = true.
Proof.
  induction a as [|c a IH]; simpl; [discriminate|].
  destruct (PyStr.isspace c); simpl; [exact IH | reflexivity].
Qed.

Lemma lstrip_nonspace (s : string) :
  has_nonspace s = true ->
  exists c s', PyStr.lstrip s = String c s' /\ PyStr.isspace c = false.
Proof.
  induction s as [|c s IH]; simpl; [discriminate|].
  destruct (PyStr.isspace c) eqn:Hsp; simpl; [exact IH|].
  intros _. now exists c, s.
Qed.

Lemma rstrip_starts_nonspace (c : ascii) (s : string) :
  PyStr.isspace c = false -> PyStr.rstrip (String c s) <> EmptyString.
Proof.
  intros Hsp. simpl. destruct (PyStr.rstrip s); [rewrite Hsp|]; discriminate.
Qed.

Lemma strip_nonspace (s : string) :
  has_nonspace s = true -> PyStr.truthy (PyStr.strip s) = true.
Proof.
  intros Hns. destruct (lstrip_nonspace s Hns) as (c & s' & Hl & Hsp).
  unfold PyStr.strip. rewrite Hl.
  pose proof (rstrip_starts_nonspace c s' Hsp) as Hne.
  now destruct (PyStr.rstrip (String c s')).
Qed.

Lemma join_empty_cons (part : string) (parts : list string) :
  PyStr.join EmptyString (part :: parts)
  = part ++ PyStr.join EmptyString parts.
Proof.
  unfold PyStr.join. destruct parts as [|p ps]; simpl; [|reflexivity].
  induction part as [|c part IH]; simpl; [reflexivity | now rewrite <- IH].
Qed.

(** The header of a document holds a hyphen, so the parts of a document
    are never blank as a whole. *)
Lemma doc_parts_nonspace (doc_info : DocInfo.t) (parts : list string) :
  has_nonspace (PyStr.join EmptyString (doc_parts doc_info ++ parts)%list) = true.
Proof.
  unfold doc_parts. cbn [app]. rewrite join_empty_cons.
  apply has_nonspace_app_l. reflexivity.
Qed.

(** X7. The provider has a text for a product exactly when the stored
    config of the cleaned name lists at least one document; whether any
    page of a document can be loaded plays no part, since the header of
    each document already counts as content. The text is then the
    concatenation of the parts of the documents. *)
Theorem provider_text_iff_documents (product_name : string) :
  (forall md,
      _get_full_markdown_for_product product_name = Some md <->
      exists product_config doc_info infos,
        load_product_config (clean_filename product_name) = Some product_config
        /\ ProductConfig.markdown_document_infos product_config
           = Some (doc_info :: infos)
        /\ md = PyStr.join EmptyString (flat_map doc_parts (doc_info :: infos)))
  /\ (_get_full_markdown_for_product product_name = None <->
      load_product_config (clean_filename product_name) = None
      \/ exists product_config,
           load_product_config (clean_filename product_name) = Some product_config
           /\ (ProductConfig.markdown_document_infos product_config = None
               \/ ProductConfig.markdown_document_infos product_config = Some [])).
Proof.
  unfold _get_full_markdown_for_product.
  destruct (load_product_config (clean_filename product_name)) as [cfg|].
  2:{ split.
      - intros md. split; [discriminate|]. intros (? & ? & ? & Hc & _).
        discriminate Hc.
      - split; [now left | reflexivity]. }
  destruct (ProductConfig.markdown_document_infos cfg) as [[|doc infos]|] eqn:Hinfos.
  - split.
    + intros md. split; [discriminate|].
      intros (cfg' & d & l & [= <-] & Hl & _). congruence.
    + split; [|reflexivity]. intros _. right. exists cfg. split; [reflexivity|].
      now right.
  - cbn [flat_map]. rewrite (strip_nonspace _ (doc_parts_nonspace doc _)).
    split.
    + intros md. split.
      * intros [= <-]. now exists cfg, doc, infos.
      * intros (cfg' & d & l & [= <-] & Hl & ->). rewrite Hinfos in Hl.
        injection Hl as <- <-. reflexivity.
    + split; [discriminate|].
      intros [Hnone|(cfg' & [= <-] & [Hn|Hn])]; congruence.
  - split.
    + intros md. split; [discriminate|].
      intros (cfg' & d & l & [= <-] & Hl & _). congruence.
    + split; [|reflexivity]. intros _. right. exists cfg. split; [reflexivity|].
      now left.
Qed.

(** X8. The size check agrees with the truncator: for a product without
    text it reports no excess and size zero; for a product with a text it
    reports the length of that text, which is positive; when it reports no
    excess the truncator returns the text as it is, and when it reports an
    excess (the text is longer than the limit) the truncator returns the
    first characters up to the limit followed by the marker. *)
Theorem check_document_size_agrees (product_name : string) :
  (_get_full_markdown_for_product product_name = None ->
     check_document_size product_name = (false, 0%N))
  /\ (forall md,
        _get_full_markdown_for_product product_name = Some md ->
        snd (check_document_size product_name) = PyStr.len md
        /\ (0 < PyStr.len md)%N
        /\ (fst (check_document_size product_name) = true
            <-> (MAX_MARKDOWN_CONTEXT_CHARS < PyStr.len md)%N)
        /\ (fst (check_document_size product_name) = false ->
            _truncate_markdown md product_name = md)
        /\ (fst (check_document_size product_name) = true ->
            _truncate_markdown md product_name
            = substring 0 (N.to_nat MAX_MARKDOWN_CONTEXT_CHARS) md
                ++ TRUNCATION_MARKER)).
Proof.
  unfold check_document_size. split.
  - now intros ->.
  - intros md Hmd. rewrite Hmd. cbn [check_document_size_of].
    pose proof (provider_text_truthy _ _ Hmd) as Htruthy. rewrite Htruthy.
    cbn [fst snd]. split; [reflexivity|]. split.
    { destruct md; [discriminate|]. unfold PyStr.len. simpl. lia. }
    unfold _truncate_markdown.
    generalize MAX_MARKDOWN_CONTEXT_CHARS as limit. intros limit.
    destruct (limit <? PyStr.len md)%N eqn:Hlt.
    + apply N.ltb_lt in Hlt.
      repeat split; intros; try assumption; try discriminate; reflexivity.
    + apply N.ltb_ge in Hlt.
      repeat split; intros; try discriminate; try reflexivity; lia.
Qed.

End ProviderFacts.

(* ===================================================================== *)
(** * Further properties of the category-scoped extractor *)
(* ===================================================================== *)

Section ExtractorRuns.
Context `{Collaborators}.

Variables (product_name product_markdown_truncated model_choice : string).
Variable all_questions : list Question.t.

Local Abbreviation run_categories :=
  (extract_categories product_name product_markdown_truncated model_choice
     all_questions).
Local Abbreviation run_category :=
  (extract_category product_name product_markdown_truncated model_choice
     all_questions).
Local Abbreviation category_request category :=
  (retry_request
     (extraction_messages product_name category product_markdown_truncated
        (questions_for_category category all_questions))
     model_choice 32000).

(** One turn of the category loop: either the category has no question
    and nothing happens, or between one and [MAX_LLM_RETRIES] copies of
    the category's request are sent and every question of the category
    gets a record of one and the same kind. *)
Lemma extract_category_cases (category : string) (w : World) :
  let questions := questions_for_category category all_questions in
  (questions = [] /\ run_category category w = ([], w))
  \/ (questions <> []
      /\ (exists k,
            1 <= k <= MAX_LLM_RETRIES
            /\ llm_calls (snd (run_category category w))
               = (llm_calls w ++ repeat (category_request category) k)%list)
      /\ (fst (run_category category w) = map (error_llm_record category) questions
          \/ fst (run_category category w)
             = map (error_parsing_record category) questions
          \/ exists answers_json,
               fst (run_category category w)
               = map (raw_record category answers_json) questions)).
Proof.
  intros questions. unfold extract_category. fold questions.
  destruct questions as [|q qs] eqn:Hqs; [left; now split|].
  right. split; [discriminate|].
  unfold bind, _call_llm_with_retry.
  destruct (retry_attempts_calls
              (extraction_messages product_name category
                 product_markdown_truncated (q :: qs))
              model_choice 32000 MAX_LLM_RETRIES w)
    as (k & Hle & Hpos & _ & Hcalls).
  destruct (retry_attempts _ _ _ _ w) as [[response|] w1]; cbn [fst snd] in *.
  - destruct (PyStr.truthy response); unfold ret; cbn [fst snd].
    + split.
      * exists k. split; [unfold MAX_LLM_RETRIES in *; lia | exact Hcalls].
      * unfold parse_category_response.
        destruct (decode_response response) as [[| | | | | |answers_json]|];
          try (right; left; reflexivity).
        right. right. now exists answers_json.
    + split; [|now left].
      exists k. split; [unfold MAX_LLM_RETRIES in *; lia | exact Hcalls].
  - unfold ret; cbn [fst snd]. split; [|now left].
    exists k. split; [unfold MAX_LLM_RETRIES in *; lia | exact Hcalls].
Qed.

Lemma extract_category_shape (category : string) (w : World) :
  Forall category_record_shape (fst (run_category category w)).
Proof.
  apply Forall_forall. intros r Hin.
  destruct (extract_category_cases category w)
    as [[_ Hnone]|(_ & _ & [Hb|[Hb|(m & Hb)]])].
  - rewrite Hnone in Hin. contradiction.
  - rewrite Hb in Hin. apply in_map_iff in Hin. destruct Hin as (q & <- & _).
    split; [reflexivity|]. right. left. now split.
  - rewrite Hb in Hin. apply in_map_iff in Hin. destruct Hin as (q & <- & _).
    split; [reflexivity|]. right. right. now split.
  - rewrite Hb in Hin. apply in_map_iff in Hin. destruct Hin as (q & <- & _).
    split; [reflexivity|]. now left.
Qed.

Lemma extract_categories_shape (categories : list string) :
  forall w, Forall category_record_shape (fst (run_categories categories [] w)).
Proof.
  induction categories as [|c cs IH]; intros w; [constructor|].
  rewrite extract_categories_cons. cbn [fst].
  apply Forall_app. split; [apply extract_category_shape | apply IH].
Qed.

(** The identifying fields of the records, in order. *)
Lemma extract_category_bases (category : string) (w : World) :
  map record_base (fst (run_category category w))
  = map (fun q => (Question.id q, Question.text q, category))
        (questions_for_category category all_questions).
Proof.
  destruct (extract_category_cases category w)
    as [[Hnil Hnone]|(_ & _ & [Hb|[Hb|(m & Hb)]])].
  - rewrite Hnone. cbv zeta in Hnil. now rewrite Hnil.
  - rewrite Hb, map_map. reflexivity.
  - rewrite Hb, map_map. reflexivity.
  - rewrite Hb, map_map. reflexivity.
Qed.

Lemma extract_categories_bases (categories : list string) :
  forall w,
    map record_base (fst (run_categories categories [] w))
    = flat_map (fun category =>
                  map (fun q => (Question.id q, Question.text q, category))
                      (questions_for_category category all_questions))
               categories.
Proof.
  induction categories as [|c cs IH]; intros w; [reflexivity|].
  rewrite extract_categories_cons. cbn [fst flat_map].
  now rewrite map_app, extract_category_bases, IH.
Qed.

(** The requests of a run: at least one and at most [MAX_LLM_RETRIES] for
    each category that has a question, none for the others, all in JSON
    mode, for the chosen model, with 32000 tokens. *)
Lemma extract_categories_calls (categories : list string) :
  forall w,
    exists added,
      llm_calls (snd (run_categories categories [] w)) = (llm_calls w ++ added)%list
      /\ length (filter (has_questions all_questions) categories) <= length added
      /\ length added
         <= MAX_LLM_RETRIES * length (filter (has_questions all_questions) categories)
      /\ Forall (fun request =>
                   Request.json_mode request = true
                   /\ Request.model request = model_choice
                   /\ Request.max_tokens request = 32000%N) added.
Proof.
  induction categories as [|c cs IH]; intros w.
  - exists []. simpl. rewrite app_nil_r. repeat split; try lia. constructor.
  - rewrite extract_categories_cons. cbn [snd filter].
    destruct (IH (snd (run_category c w))) as (rest & Hrest & Hlow & Hhigh & Hall).
    replace (has_questions all_questions c)
      with (nonempty (questions_for_category c all_questions)) by reflexivity.
    destruct (extract_category_cases c w)
      as [[Hnil Hnone]|(Hne & (k & Hk & Hcalls) & _)].
    + cbv zeta in Hnil. rewrite Hnil. cbn [nonempty].
      rewrite Hnone in Hrest |- *. cbn [snd] in Hrest |- *.
      exists rest. now repeat split.
    + destruct (questions_for_category c all_questions) as [|q qs] eqn:Hqs;
        [contradiction|]. cbn [nonempty length].
      exists (repeat (retry_request
                        (extraction_messages product_name c
                           product_markdown_truncated (q :: qs))
                        model_choice 32000) k ++ rest)%list.
      rewrite Hrest, Hcalls, app_assoc, List.length_app, repeat_length.
      repeat split; try lia.
      apply Forall_app. split; [|exact Hall].
      apply Forall_forall. intros request Hin.
      apply repeat_spec in Hin. subst request. now repeat split.
Qed.

End ExtractorRuns.

Section ExtractorMore.
Context `{Collaborators}.

Lemma extract_categories_idle
    (product_name truncated model_choice : string)
    (all_questions : list Question.t) (categories : list string) :
  (forall c, In c categories -> questions_for_category c all_questions = []) ->
  forall w,
    extract_categories product_name truncated model_choice all_questions
      categories [] w = ([], w).
Proof.
  induction categories as [|c cs IH]; intros Hidle w; [reflexivity|].
  rewrite extract_categories_cons.
  unfold extract_category at 1 2 3.
  rewrite (Hidle c (or_introl eq_refl)). unfold ret. cbn [fst snd app].
  rewrite IH by (intros c' Hc'; apply Hidle; now right). reflexivity.
Qed.

(** X10. With a text at hand, a configuration without categories or
    without questions gives a result with no answers and no request to the
    gateway, in both modes; so does, category by category, a configuration
    in which no category has a question. *)
Theorem extract_nothing_to_ask
    (product_name model_choice md : string) (questions_config : QuestionsConfig.t)
    (w : World) :
  _get_full_markdown_for_product product_name = Some md ->
  (QuestionsConfig.categories questions_config = []
   \/ QuestionsConfig.questions questions_config = [] ->
   forall extract_by_category,
     extract_answers_for_product product_name questions_config
       extract_by_category model_choice w
     = (Some (ProductExtractionResult.mk product_name []), w))
  /\ ((forall c, In c (QuestionsConfig.categories questions_config) ->
         questions_for_category c (QuestionsConfig.questions questions_config) = []) ->
      extract_answers_for_product product_name questions_config true model_choice w
      = (Some (ProductExtractionResult.mk product_name []), w)).
Proof.
  intros Hmd. split.
  - intros Hempty flag. unfold extract_answers_for_product.
    rewrite Hmd, (provider_text_truthy _ _ Hmd). cbn [negb].
    destruct Hempty as [-> | ->]; cbn [nonempty negb orb]; [reflexivity|].
    now rewrite orb_true_r.
  - intros Hidle.
    destruct (QuestionsConfig.categories questions_config) as [|c cs] eqn:Hcats.
    { unfold extract_answers_for_product.
      rewrite Hmd, (provider_text_truthy _ _ Hmd), Hcats. reflexivity. }
    destruct (QuestionsConfig.questions questions_config) as [|q qs] eqn:Hqs.
    { unfold extract_answers_for_product.
      rewrite Hmd, (provider_text_truthy _ _ Hmd), Hcats, Hqs. reflexivity. }
    rewrite (extract_by_category_unfold _ _ _ md); try assumption;
      try (rewrite ?Hcats, ?Hqs; discriminate).
    rewrite Hcats, Hqs, extract_categories_idle by exact Hidle. reflexivity.
Qed.

(** X11. The mode without categories, with a text and a configuration
    that has categories and questions: one record per configured question,
    in order, with the fixed error text, the status
    [error_not_implemented] and, as category, the question's categories
    joined by a comma and a space ([N/A] when the question has no such
    key); no request reaches the gateway. *)
Theorem extract_batch_mode_not_implemented
    (product_name model_choice md : string) (questions_config : QuestionsConfig.t)
    (w : World) :
  _get_full_markdown_for_product product_name = Some md ->
  QuestionsConfig.categories questions_config <> [] ->
  QuestionsConfig.questions questions_config <> [] ->
  exists result,
    extract_answers_for_product product_name questions_config false model_choice w
    = (Some result, w)
    /\ map (fun r => (AnswerRecord.question_id r, AnswerRecord.question_text r,
                      AnswerRecord.answer r, AnswerRecord.category r,
                      AnswerRecord.status r, AnswerRecord.correction_reason r))
           (ProductExtractionResult.answers result)
       = map (fun q =>
                (Question.id q, Question.text q,
                 "Error: Batch extraction not fully implemented",
                 match Question.applies_to_categories q with
                 | Some categories => PyStr.join ", " categories
                 | None => "N/A"
                 end,
                 error_not_implemented, None))
             (QuestionsConfig.questions questions_config).
Proof.
  intros Hmd Hcats Hqs. unfold extract_answers_for_product.
  rewrite Hmd, (provider_text_truthy _ _ Hmd). cbn [negb].
  destruct (QuestionsConfig.categories questions_config) as [|c cs];
    [contradiction|].
  destruct (QuestionsConfig.questions questions_config) as [|q qs] eqn:Hq;
    [contradiction|].
  cbn [nonempty negb orb]. unfold ret. eexists. split; [reflexivity|].
  cbn [ProductExtractionResult.answers]. rewrite map_map.
  apply map_ext. intros q'. unfold not_implemented_record. cbn.
  now destruct (Question.applies_to_categories q').
Qed.

End ExtractorMore.

Section ExtractorRecords.
Context `{Collaborators}.


(** X14. Where the records of a by-category extraction come from: their
    question ids, question texts and categories are, in order, those of
    the configured categories, each with the questions that apply to it.
    So every record belongs to a configured question and to a configured
    category that the question applies to, and every such pair of question
    and category has its record; a question that applies to no configured
    category has none. *)
Theorem extract_records_follow_configuration
    (product_name model_choice : string) (questions_config : QuestionsConfig.t)
    (w : World) (result : ProductExtractionResult.t) :
  let categories := QuestionsConfig.categories questions_config in
  let all_questions := QuestionsConfig.questions questions_config in
  fst (extract_answers_for_product product_name questions_config true
         model_choice w) = Some result ->
  map record_base (ProductExtractionResult.answers result)
  = flat_map (fun category =>
                map (fun q => (Question.id q, Question.text q, category))
                    (questions_for_category category all_questions))
             categories
  /\ (forall r, In r (ProductExtractionResult.answers result) ->
        exists q,
          In q all_questions
          /\ In (AnswerRecord.category r) categories
          /\ applies_to (AnswerRecord.category r) q = true
          /\ AnswerRecord.question_id r = Question.id q
          /\ AnswerRecord.question_text r = Question.text q)
  /\ (forall q c, In q all_questions -> In c categories ->
        applies_to c q = true ->
        In (Question.id q, Question.text q, c)
           (map record_base (ProductExtractionResult.answers result))).
Proof.
  intros categories all_questions Hrun.
  assert (Hbases : map record_base (ProductExtractionResult.answers result)
                   = flat_map (fun category =>
                                 map (fun q => (Question.id q, Question.text q, category))
                                     (questions_for_category category all_questions))
                              categories).
  { unfold extract_answers_for_product in Hrun.
    destruct (_get_full_markdown_for_product product_name) as [md|];
      [|discriminate].
    destruct (negb (PyStr.truthy md)); [discriminate|].
    fold categories all_questions in Hrun.
    destruct categories as [|c cs]; [injection Hrun as <-; reflexivity|].
    destruct all_questions as [|q qs] eqn:Hqs.
    { injection Hrun as <-. cbn [ProductExtractionResult.answers map].
      clear. induction (c :: cs) as [|c' l IH]; [reflexivity | exact IH]. }
    cbn [nonempty negb orb] in Hrun. unfold bind, ret in Hrun.
    pose proof (extract_categories_bases product_name
                  (_truncate_markdown md product_name) model_choice
                  (q :: qs) (c :: cs) w) as Hb.
    destruct (extract_categories _ _ _ _ (c :: cs) [] w) as [answers w'].
    injection Hrun as <-. exact Hb. }
  split; [exact Hbases|]. split.
  - intros r Hr. apply (in_map record_base) in Hr. rewrite Hbases in Hr.
    apply in_flat_map in Hr. destruct Hr as (c & Hc & Hr).
    apply in_map_iff in Hr. destruct Hr as (q & Hq & Hin).
    apply filter_In in Hin. destruct Hin as [Hin Happ].
    unfold record_base in Hq. injection Hq as Hid Htext Hcat.
    exists q. rewrite <- Hcat. now repeat split.
  - intros q c Hq Hc Happ. rewrite Hbases.
    apply in_flat_map. exists c. split; [exact Hc|].
    apply in_map_iff. exists q. split; [reflexivity|].
    apply filter_In. now split.
Qed.

(** The records of a run over some categories carry one of these
    categories. *)
Lemma extract_categories_category_in
    (product_name truncated model_choice : string)
    (all_questions : list Question.t) (categories : list string) (w : World)
    (r : AnswerRecord.t) :
  In r (fst (extract_categories product_name truncated model_choice
               all_questions categories [] w)) ->
  In (AnswerRecord.category r) categories.
Proof.
  intros Hr. apply (in_map record_base) in Hr.
  rewrite extract_categories_bases in Hr.
  apply in_flat_map in Hr. destruct Hr as (c & Hc & Hr).
  apply in_map_iff in Hr. destruct Hr as (q & [= _ _ <-] & _). exact Hc.
Qed.

(** The records one category appends all have its name and one status. *)
Lemma extract_category_uniform
    (product_name truncated model_choice : string)
    (all_questions : list Question.t) (category : string) (w : World) :
  forall r r',
    In r (fst (extract_category product_name truncated model_choice
                 all_questions category w)) ->
    In r' (fst (extract_category product_name truncated model_choice
                  all_questions category w)) ->
    AnswerRecord.category r = category
    /\ AnswerRecord.status r = AnswerRecord.status r'.
Proof.
  intros r r'.
  destruct (extract_category_cases product_name truncated model_choice
              all_questions category w)
    as [[_ Hnone]|(_ & _ & [Hb|[Hb|(m & Hb)]])].
  - rewrite Hnone. contradiction.
  - rewrite Hb. intros Hr Hr'. apply in_map_iff in Hr, Hr'.
    destruct Hr as (q & <- & _), Hr' as (q' & <- & _). now split.
  - rewrite Hb. intros Hr Hr'. apply in_map_iff in Hr, Hr'.
    destruct Hr as (q & <- & _), Hr' as (q' & <- & _). now split.
  - rewrite Hb. intros Hr Hr'. apply in_map_iff in Hr, Hr'.
    destruct Hr as (q & <- & _), Hr' as (q' & <- & _). now split.
Qed.

Lemma extract_categories_uniform
    (product_name truncated model_choice : string)
    (all_questions : list Question.t) (categories : list string) :
  NoDup categories ->
  forall w r r',
    In r (fst (extract_categories product_name truncated model_choice
                 all_questions categories [] w)) ->
    In r' (fst (extract_categories product_name truncated model_choice
                  all_questions categories [] w)) ->
    AnswerRecord.category r = AnswerRecord.category r' ->
    AnswerRecord.status r = AnswerRecord.status r'.
Proof.
  intros Hnd. induction Hnd as [|c cs Hnotin Hnd IH]; intros w r r';
    [contradiction|].
  rewrite extract_categories_cons. cbn [fst]. rewrite !in_app_iff.
  intros [Hr|Hr] [Hr'|Hr'] Hcat.
  - now apply (extract_category_uniform _ _ _ _ _ _ r r' Hr Hr').
  - exfalso. apply Hnotin.
    destruct (extract_category_uniform _ _ _ _ _ _ r r Hr Hr) as [<- _].
    rewrite Hcat. now apply extract_categories_category_in in Hr'.
  - exfalso. apply Hnotin.
    destruct (extract_category_uniform _ _ _ _ _ _ r' r' Hr' Hr') as [<- _].
    rewrite <- Hcat. now apply extract_categories_category_in in Hr.
  - now apply (IH _ r r' Hr Hr').
Qed.

(** X15. In a by-category extraction over pairwise distinct categories,
    the records of one category all have the same status: a category is
    answered as a whole ([raw]) or fails as a whole ([error_llm] or
    [error_parsing]). Each record has one of these three statuses, no
    correction reason, and the fixed error text of its status when it is
    an error. *)
Theorem extract_status_per_category
    (product_name model_choice : string) (questions_config : QuestionsConfig.t)
    (w : World) (result : ProductExtractionResult.t) :
  NoDup (QuestionsConfig.categories questions_config) ->
  fst (extract_answers_for_product product_name questions_config true
         model_choice w) = Some result ->
  (forall r r',
      In r (ProductExtractionResult.answers result) ->
      In r' (ProductExtractionResult.answers result) ->
      AnswerRecord.category r = AnswerRecord.category r' ->
      AnswerRecord.status r = AnswerRecord.status r')
  /\ Forall category_record_shape (ProductExtractionResult.answers result).
Proof.
  intros Hnd Hrun. unfold extract_answers_for_product in Hrun.
  destruct (_get_full_markdown_for_product product_name) as [md|];
    [|discriminate].
  destruct (negb (PyStr.truthy md)); [discriminate|].
  destruct (negb (nonempty (QuestionsConfig.categories questions_config))
            || negb (nonempty (QuestionsConfig.questions questions_config))).
  { injection Hrun as <-. split; [intros r r' []|constructor]. }
  unfold bind, ret in Hrun.
  pose proof (extract_categories_uniform product_name
                (_truncate_markdown md product_name) model_choice
                (QuestionsConfig.questions questions_config)
                (QuestionsConfig.categories questions_config) Hnd w) as Huni.
  pose proof (extract_categories_shape product_name
                (_truncate_markdown md product_name) model_choice
                (QuestionsConfig.questions questions_config)
                (QuestionsConfig.categories questions_config) w) as Hshape.
  destruct (extract_categories _ _ _ _ _ [] w) as [answers w'].
  injection Hrun as <-. cbn [fst ProductExtractionResult.answers] in *.
  split; [exact Huni | exact Hshape].
Qed.

End ExtractorRecords.

(* ===================================================================== *)
(** * Further properties of the self-correction reviewer *)
(* ===================================================================== *)

Section ReviewerMore.
Context `{Collaborators}.

(** With a text at hand the reviewer is the retrying caller followed by
    the parse of what it returns. *)
Lemma self_correct_answers_unfold
    (product_name model_choice md : string)
    (extracted_answers : list AnswerRecord.t) (w : World) :
  _get_full_markdown_for_product product_name = Some md ->
  let call :=
    _call_llm_with_retry
      (review_messages product_name (_truncate_markdown md product_name)
         extracted_answers)
      model_choice 32000 MAX_LLM_RETRIES w in
  self_correct_answers product_name extracted_answers model_choice w
  = (match fst call with
     | Some response_str => review_response response_str
     | None => inr None
     end, snd call).
Proof.
  intros Hmd call. subst call. unfold self_correct_answers.
  rewrite Hmd, (provider_text_truthy _ _ Hmd). cbn [negb]. unfold bind.
  destruct (_call_llm_with_retry _ _ _ _ w) as [[response|] w'] eqn:Hcall;
    cbn [fst snd]; [|reflexivity].
  now destruct (retry_attempts_accepts_truthy _ _ _ _ _ _ _ Hcall) as [-> _].
Qed.

(** The outcomes of the parse, by the kind of the decoded value. *)
Lemma review_response_cases (response_str : string) :
  review_response response_str
  = match decode_response response_str with
    | None => inr None
    | Some (JObj d) =>
        match PyDict.get d "corrections" with
        | Some (JArr corrections_list) =>
            inr (Some (filter valid_correction_item corrections_list))
        | Some _ | None => inr None
        end
    | Some (JArr items) =>
        if existsb (fun x => PyJson.eq_str x "corrections") items
        then inl TypeError else inr None
    | Some (JStr s) =>
        if PyStr.contains s "corrections" then inl TypeError else inr None
    | Some _ => inl TypeError
    end.
Proof.
  unfold review_response, review_try.
  destruct (decode_response response_str) as [[| | | |s|items|d]|];
    try reflexivity.
  - unfold review_decoded, corrections_malformed. cbn.
    now destruct (PyStr.contains s "corrections").
  - unfold review_decoded, corrections_malformed. cbn.
    now destruct (existsb _ items).
  - unfold review_decoded, corrections_malformed. cbn. unfold PyDict.mem.
    destruct (PyDict.get d "corrections") as [[]|]; reflexivity.
Qed.

(** X16. The quiet failures of the reviewer and what they cost. Without a
    text for the product it fails at once, with no request to the gateway.
    With a text it sends between one and [MAX_LLM_RETRIES] copies of one
    review request and nothing else; when the retrying caller gives up it
    has sent all [MAX_LLM_RETRIES] and the review fails with [None]. *)
Theorem review_failures_and_budget
    (product_name model_choice : string)
    (extracted_answers : list AnswerRecord.t) (w : World) :
  let run := self_correct_answers product_name extracted_answers model_choice w in
  (_get_full_markdown_for_product product_name = None -> run = (inr None, w))
  /\ (forall md,
        _get_full_markdown_for_product product_name = Some md ->
        let messages :=
          review_messages product_name (_truncate_markdown md product_name)
            extracted_answers in
        exists k,
          1 <= k <= 3
          /\ llm_calls (snd run)
             = (llm_calls w
                  ++ repeat (Request.mk messages model_choice true 32000) k)%list
          /\ (fst (_call_llm_with_retry messages model_choice 32000
                     MAX_LLM_RETRIES w) = None ->
              fst run = inr None /\ k = 3)).
Proof.
  intros run. subst run. split.
  - intros Hnone. unfold self_correct_answers. now rewrite Hnone.
  - intros md Hmd messages.
    rewrite (self_correct_answers_unfold _ _ md) by exact Hmd.
    fold messages. cbn [fst snd].
    destruct (retry_attempts_calls messages model_choice 32000 MAX_LLM_RETRIES w)
      as (k & Hle & Hpos & Hnone & Hcalls).
    exists k. unfold MAX_LLM_RETRIES in *.
    split; [lia|]. split; [exact Hcalls|].
    unfold _call_llm_with_retry. intros Hfail. rewrite Hfail.
    split; [reflexivity | now apply Hnone].
Qed.

(** X17. Whenever the reviewer returns a list, the response it accepted
    decoded to an object whose key [corrections] holds an array, and the
    list is that array with the invalid items left out: every returned
    item is an object that has the four required keys, the items keep the
    order they had, and none is added. *)
Theorem review_success_inversion
    (product_name model_choice : string)
    (extracted_answers : list AnswerRecord.t) (w : World)
    (valid_corrections : list json) :
  fst (self_correct_answers product_name extracted_answers model_choice w)
  = inr (Some valid_corrections) ->
  exists md response_str d corrections_list,
    _get_full_markdown_for_product product_name = Some md
    /\ fst (_call_llm_with_retry
              (review_messages product_name (_truncate_markdown md product_name)
                 extracted_answers)
              model_choice 32000 MAX_LLM_RETRIES w) = Some response_str
    /\ decode_response response_str = Some (JObj d)
    /\ PyDict.get d "corrections" = Some (JArr corrections_list)
    /\ valid_corrections = filter valid_correction_item corrections_list
    /\ length valid_corrections <= length corrections_list
    /\ forall item, In item valid_corrections ->
         In item corrections_list
         /\ exists fields,
              item = JObj fields
              /\ forall k, In k REQUIRED_CORRECTION_KEYS ->
                   PyDict.get fields k <> None.
Proof.
  intros Hrun.
  destruct (_get_full_markdown_for_product product_name) as [md|] eqn:Hmd.
  2:{ unfold self_correct_answers in Hrun. rewrite Hmd in Hrun. discriminate. }
  rewrite (self_correct_answers_unfold _ _ md) in Hrun by exact Hmd.
  cbn [fst] in Hrun.
  destruct (fst (_call_llm_with_retry _ _ _ _ w)) as [response|] eqn:Hcall;
    [|discriminate].
  rewrite review_response_cases in Hrun.
  destruct (decode_response response) as [[| | | |s|items|d]|] eqn:Hdec;
    try discriminate.
  - destruct (PyStr.contains s "corrections"); discriminate.
  - destruct (existsb _ items); discriminate.
  - destruct (PyDict.get d "corrections") as [[| | | | |arr|]|] eqn:Hget;
      try discriminate.
    injection Hrun as <-.
    exists md, response, d, arr.
    do 5 (split; [assumption || reflexivity|]). split.
    + clear. induction arr as [|x arr IH]; simpl; [lia|].
      destruct (valid_correction_item x); simpl; lia.
    + intros item Hitem. apply filter_In in Hitem.
      destruct Hitem as [Hin Hvalid]. split; [exact Hin|].
      apply valid_correction_item_spec in Hvalid.
      destruct Hvalid as (fields & -> & Hkeys).
      exists fields. split; [reflexivity|]. intros k Hk Hnone.
      specialize (Hkeys k Hk). unfold PyDict.mem in Hkeys.
      rewrite Hnone in Hkeys. discriminate.
Qed.

(** X19. An accepted review response that cannot be decoded, or that
    decodes to an object in which the key [corrections] is missing or
    holds something other than an array, makes the review fail with
    [None]; an object whose [corrections] array is empty, or holds invalid
    items only, gives the empty list, which is a success. *)
Theorem review_malformed_response
    (product_name model_choice md response_str : string)
    (extracted_answers : list AnswerRecord.t) (w w_called : World) :
  _get_full_markdown_for_product product_name = Some md ->
  _call_llm_with_retry
    (review_messages product_name (_truncate_markdown md product_name)
       extracted_answers)
    model_choice 32000 MAX_LLM_RETRIES w
  = (Some response_str, w_called) ->
  (decode_response response_str = None ->
     self_correct_answers product_name extracted_answers model_choice w
     = (inr None, w_called))
  /\ (forall d,
        decode_response response_str = Some (JObj d) ->
        (forall corrections_list,
            PyDict.get d "corrections" <> Some (JArr corrections_list)) ->
        self_correct_answers product_name extracted_answers model_choice w
        = (inr None, w_called))
  /\ (forall d corrections_list,
        decode_response response_str = Some (JObj d) ->
        PyDict.get d "corrections" = Some (JArr corrections_list) ->
        forallb (fun item => negb (valid_correction_item item)) corrections_list
        = true ->
        self_correct_answers product_name extracted_answers model_choice w
        = (inr (Some []), w_called)).
Proof.
  intros Hmd Hcall.
  rewrite (self_correct_answers_unfold _ _ md) by exact Hmd.
  rewrite Hcall. cbn [fst snd]. rewrite review_response_cases.
  split; [now intros ->|]. split.
  - intros d -> Hnot.
    destruct (PyDict.get d "corrections") as [[| | | | |arr|]|]; try reflexivity.
    now contradiction (Hnot arr).
  - intros d arr -> -> Hinvalid. do 2 f_equal. f_equal.
    induction arr as [|x arr IH]; [reflexivity|].
    simpl in *. apply andb_true_iff in Hinvalid. destruct Hinvalid as [Hx Hrest].
    apply negb_true_iff in Hx. rewrite Hx. now apply IH.
Qed.

End ReviewerMore.

(* ===================================================================== *)
(** * Further properties of the correction applicator *)
(* ===================================================================== *)

Section ApplicatorMore.

Implicit Types (d : PyDict.t AnswerRecord.t) (correction : Correction.t).

Lemma find_app_first {A} (f : A -> bool) (l l' : list A) :
  find f (l ++ l')
  = match find f l with Some x => Some x | None => find f l' end.
Proof.
  induction l as [|a l IH]; simpl; [reflexivity|].
  now destruct (f a).
Qed.

Lemma get_set {V} (d0 : PyDict.t V) (k q : string) (v : V) :
  PyDict.get (PyDict.set d0 k v) q
  = if (k =? q)%string then Some v else PyDict.get d0 q.
Proof.
  induction d0 as [|[k' v'] d0 IH]; simpl.
  - reflexivity.
  - destruct (String.eqb_spec k' k) as [->|Hne]; simpl.
    + now destruct (k =? q)%string.
    + rewrite IH. destruct (String.eqb_spec k' q) as [->|]; [|reflexivity].
      destruct (String.eqb_spec k q); [congruence | reflexivity].
Qed.

(** The answers map holds, for each question id, the last answer filed
    under it. *)
Lemma get_fold_set (original_answers : list AnswerRecord.t) (q_id : string) :
  forall d,
    PyDict.get
      (fold_left (fun m ans => PyDict.set m (AnswerRecord.question_id ans) ans)
         original_answers d) q_id
    = match last_answer_for q_id original_answers with
      | Some ans => Some ans
      | None => PyDict.get d q_id
      end.
Proof.
  unfold last_answer_for, answer_for.
  induction original_answers as [|a l IH]; intros d; [reflexivity|].
  cbn [fold_left rev]. rewrite IH, find_app_first, get_set. cbn [find].
  destruct (find _ (rev l)); [reflexivity|].
  now destruct (AnswerRecord.question_id a =? q_id)%string.
Qed.

Lemma get_answers_map (original_answers : list AnswerRecord.t) (q_id : string) :
  PyDict.get (answers_map original_answers) q_id
  = last_answer_for q_id original_answers.
Proof.
  unfold answers_map. rewrite get_fold_set.
  now destruct (last_answer_for q_id original_answers).
Qed.

(** In a map whose records sit under their own ids, looking a question id
    up among the values is looking its key up. *)
Lemma answer_for_values d (q_id : string) :
  Forall (fun item => AnswerRecord.question_id (snd item) = fst item) d ->
  answer_for q_id (PyDict.values d) = PyDict.get d q_id.
Proof.
  unfold answer_for. induction d as [|[k v] d IH]; intros Hcons; [reflexivity|].
  inversion Hcons as [|? ? Hk Hrest]; subst. simpl in *.
  rewrite Hk. destruct (k =? q_id)%string; [reflexivity | now apply IH].
Qed.

Lemma get_map_items (f : string * AnswerRecord.t -> string * AnswerRecord.t)
    d (q_id : string) :
  (forall item, fst (f item) = fst item) ->
  PyDict.get (map f d) q_id
  = option_map (fun ans => snd (f (q_id, ans))) (PyDict.get d q_id).
Proof.
  intros Hkey. induction d as [|[k v] d IH]; [reflexivity|].
  simpl. specialize (Hkey (k, v)). destruct (f (k, v)) as [k' v'] eqn:Hf.
  simpl in Hkey. subst k'.
  destruct (String.eqb_spec k q_id) as [->|]; [|exact IH].
  simpl. now rewrite Hf.
Qed.

Lemma corrected_record_twice (ans : AnswerRecord.t) correction correction' :
  corrected_record (corrected_record ans correction) correction'
  = corrected_record ans correction'.
Proof. reflexivity. Qed.

(** Of the corrections of a list only the last one that names the item's
    key shows in the end. *)
Lemma correct_all_last (corrections_list : list Correction.t) :
  forall (q_id : string) (ans : AnswerRecord.t),
    correct_all corrections_list (q_id, ans)
    = (q_id,
       match last_correction_for q_id corrections_list with
       | Some correction => corrected_record ans correction
       | None => ans
       end).
Proof.
  unfold last_correction_for.
  induction corrections_list as [|c cs IH]; intros q_id ans; [reflexivity|].
  change (correct_all (c :: cs) (q_id, ans))
    with (correct_all cs (correct_item c (q_id, ans))).
  cbn [rev]. rewrite find_app_first. cbn [find].
  unfold correct_item, targets at 2. cbn [fst snd].
  destruct (Correction.question_id c) as [q|].
  - rewrite (String.eqb_sym q_id q).
    destruct (q =? q_id)%string; rewrite IH.
    + destruct (find (targets q_id) (rev cs)); [|reflexivity].
      now rewrite corrected_record_twice.
    + now destruct (find (targets q_id) (rev cs)).
  - rewrite IH. now destruct (find (targets q_id) (rev cs)).
Qed.

Lemma correct_all_key (corrections_list : list Correction.t)
    (item : string * AnswerRecord.t) :
  fst (correct_all corrections_list item) = fst item.
Proof.
  symmetry. apply (correct_all_same_base corrections_list item).
Qed.

(** X20. The result of the applicator never holds two records with the
    same question id, and it is never longer than the original list. *)
Theorem apply_corrections_distinct_ids
    (original_answers : list AnswerRecord.t)
    (corrections_list : list Correction.t) (product_name : string) :
  NoDup (map AnswerRecord.question_id
           (apply_corrections original_answers corrections_list product_name))
  /\ length (apply_corrections original_answers corrections_list product_name)
     <= length original_answers.
Proof.
  rewrite apply_corrections_itemwise.
  destruct (well_keyed_correct_all corrections_list _
              (well_keyed_answers_map original_answers)) as [Hnd Hcons].
  assert (Hids : map AnswerRecord.question_id
                   (PyDict.values (map (correct_all corrections_list)
                                     (answers_map original_answers)))
                 = PyDict.keys (map (correct_all corrections_list)
                                  (answers_map original_answers))).
  { unfold PyDict.values, PyDict.keys. rewrite map_map.
    apply map_ext_in. intros item Hin.
    rewrite Forall_forall in Hcons. now apply Hcons. }
  split; [now rewrite Hids|].
  apply (f_equal (@length string)) in Hids.
  rewrite !length_map in Hids. unfold PyDict.values. rewrite length_map.
  rewrite <- (length_map AnswerRecord.question_id original_answers).
  rewrite <- (length_map fst (map _ _)).
  apply NoDup_incl_length; [exact Hnd|].
  intros q_id Hq.
  replace (map fst (map (correct_all corrections_list)
                      (answers_map original_answers)))
    with (PyDict.keys (answers_map original_answers)) in Hq.
  - now apply in_keys_answers_map.
  - unfold PyDict.keys. rewrite map_map. apply map_ext. intros item.
    symmetry. apply correct_all_key.
Qed.

(** X21. Applying one list of corrections and then another to the result
    is applying the two lists joined, the second after the first. *)
Theorem apply_corrections_compose
    (original_answers : list AnswerRecord.t)
    (first second : list Correction.t) (product_name : string) :
  apply_corrections
    (apply_corrections original_answers first product_name) second product_name
  = apply_corrections original_answers (first ++ second)%list product_name.
Proof.
  unfold apply_corrections at 1 3. rewrite fold_left_app.
  rewrite apply_corrections_itemwise, answers_map_values
    by (apply well_keyed_correct_all, well_keyed_answers_map).
  rewrite <- corrections_itemwise by apply well_keyed_answers_map.
  reflexivity.
Qed.

(** X22. What the applicator returns for a question id: nothing when the
    original answers have no record with that id; otherwise the last
    original record with that id, with its answer, status and correction
    reason set by the last correction of the list that names the id, and
    unchanged when no correction names it. *)
Theorem apply_corrections_per_question
    (original_answers : list AnswerRecord.t)
    (corrections_list : list Correction.t) (product_name q_id : string) :
  answer_for q_id
    (apply_corrections original_answers corrections_list product_name)
  = match last_answer_for q_id original_answers with
    | None => None
    | Some ans =>
        match last_correction_for q_id corrections_list with
        | Some correction =>
            Some (AnswerRecord.mk
                    (AnswerRecord.question_id ans)
                    (AnswerRecord.question_text ans)
                    (match Correction.suggested_correction correction with
                     | Some suggested => suggested
                     | None => "None"
                     end)
                    (AnswerRecord.category ans)
                    corrected
                    (Some (match Correction.reason correction with
                           | Some reason => reason
                           | None => "No reason provided."
                           end)))
        | None => Some ans
        end
    end.
Proof.
  rewrite apply_corrections_itemwise.
  destruct (well_keyed_correct_all corrections_list _
              (well_keyed_answers_map original_answers)) as [_ Hcons].
  rewrite (answer_for_values _ _ Hcons).
  rewrite get_map_items by apply correct_all_key.
  rewrite get_answers_map.
  destruct (last_answer_for q_id original_answers) as [ans|]; [|reflexivity].
  cbn [option_map]. rewrite correct_all_last. cbn [snd].
  now destruct (last_correction_for q_id corrections_list).
Qed.

(** Corrections leave the identifying fields of every record alone. *)
Lemma apply_corrections_bases
    (original_answers : list AnswerRecord.t)
    (corrections_list : list Correction.t) (product_name : string) :
  map record_base
    (apply_corrections original_answers corrections_list product_name)
  = map record_base (apply_corrections original_answers [] product_name).
Proof.
  rewrite !apply_corrections_itemwise. unfold PyDict.values.
  rewrite !map_map. apply map_ext. intros item.
  destruct (correct_all_same_base corrections_list item) as (_ & Hid & Htext & Hcat).
  unfold correct_all at 2. cbn [fold_left]. unfold record_base.
  now rewrite Hid, Htext, Hcat.
Qed.

Lemma apply_no_corrections_distinct
    (original_answers : list AnswerRecord.t) (product_name : string) :
  NoDup (map AnswerRecord.question_id original_answers) ->
  apply_corrections original_answers [] product_name = original_answers.
Proof.
  intros Hnd. unfold apply_corrections. cbn [fold_left].
  rewrite answers_map_distinct by assumption.
  unfold PyDict.values. rewrite map_map. apply map_id.
Qed.

(** X23. Corrections change answers, statuses and reasons, nothing else:
    the question ids, question texts and categories of the result, record
    by record and in order, are those of the result without corrections;
    and when the ids of the original answers are pairwise distinct they
    are those of the original answers, in the original order. *)
Theorem apply_corrections_keeps_base_fields
    (original_answers : list AnswerRecord.t)
    (corrections_list : list Correction.t) (product_name : string) :
  map record_base
    (apply_corrections original_answers corrections_list product_name)
  = map record_base (apply_corrections original_answers [] product_name)
  /\ (NoDup (map AnswerRecord.question_id original_answers) ->
      map record_base
        (apply_corrections original_answers corrections_list product_name)
      = map record_base original_answers).
Proof.
  split; [apply apply_corrections_bases|]. intros Hnd.
  now rewrite apply_corrections_bases, apply_no_corrections_distinct.
Qed.

Lemma mem_existsb d (q_id : string) :
  existsb (String.eqb q_id) (PyDict.keys d)
  = match PyDict.get d q_id with Some _ => true | None => false end.
Proof.
  induction d as [|[k v] d IH]; [reflexivity|]. simpl.
  rewrite (String.eqb_sym q_id k). now destruct (k =? q_id)%string.
Qed.

Lemma keys_fold_set (original_answers : list AnswerRecord.t) :
  forall d,
    PyDict.keys
      (fold_left (fun m ans => PyDict.set m (AnswerRecord.question_id ans) ans)
         original_answers d)
    = (PyDict.keys d
         ++ first_occurrences (PyDict.keys d)
              (map AnswerRecord.question_id original_answers))%list.
Proof.
  induction original_answers as [|a l IH]; intros d.
  - simpl. now rewrite app_nil_r.
  - cbn [fold_left map first_occurrences]. rewrite IH, keys_set, mem_existsb.
    destruct (PyDict.get d (AnswerRecord.question_id a)); [reflexivity|].
    now rewrite <- app_assoc.
Qed.

(** X25. The order of the result: its question ids are the question ids
    of the original answers in the order of their first occurrence, each
    once, whatever the corrections. *)
Theorem apply_corrections_order
    (original_answers : list AnswerRecord.t)
    (corrections_list : list Correction.t) (product_name : string) :
  map AnswerRecord.question_id
    (apply_corrections original_answers corrections_list product_name)
  = first_occurrences [] (map AnswerRecord.question_id original_answers).
Proof.
  replace (map AnswerRecord.question_id
             (apply_corrections original_answers corrections_list product_name))
    with (map (fun b => fst (fst b))
            (map record_base
               (apply_corrections original_answers corrections_list product_name)))
    by (rewrite map_map; reflexivity).
  rewrite apply_corrections_bases, map_map.
  unfold apply_corrections. cbn [fold_left].
  destruct (well_keyed_answers_map original_answers) as [_ Hcons].
  replace (map (fun r => fst (fst (record_base r)))
             (PyDict.values (answers_map original_answers)))
    with (PyDict.keys (answers_map original_answers)).
  - unfold answers_map. now rewrite keys_fold_set.
  - unfold PyDict.values, PyDict.keys. rewrite map_map.
    apply map_ext_in. intros item Hin.
    rewrite Forall_forall in Hcons. symmetry. now apply Hcons.
Qed.

End ApplicatorMore.

(* ===================================================================== *)
(** * Extraction followed by correction *)
(* ===================================================================== *)

Section Pipeline2.
Context `{Collaborators}.

(** The question ids of a by-category run are pairwise distinct when the
    categories and the question ids of the configuration are and no
    question applies to two of the categories. *)
Lemma extract_categories_distinct_ids
    (product_name truncated model_choice : string)
    (all_questions : list Question.t) (categories : list string) (w : World) :
  NoDup categories ->
  NoDup (map Question.id all_questions) ->
  (forall q c c', In q all_questions -> In c categories -> In c' categories ->
     applies_to c q = true -> applies_to c' q = true -> c = c') ->
  NoDup (map AnswerRecord.question_id
           (fst (extract_categories product_name truncated model_choice
                   all_questions categories [] w))).
Proof.
  intros Hcats Hids Hone.
  set (answers := fst (extract_categories _ _ _ _ categories [] w)).
  pose proof (extract_categories_keys product_name truncated model_choice
                all_questions categories w) as Hkeys.
  fold answers in Hkeys.
  replace (map AnswerRecord.question_id answers)
    with (map fst (map answer_key answers)) by (now rewrite map_map).
  apply NoDup_map_NoDup_ForallPairs;
    [|rewrite Hkeys; now apply NoDup_category_keys].
  rewrite Hkeys. intros [i c] [i' c'] Hin Hin' Hfst. simpl in Hfst. subst i'.
  apply in_flat_map in Hin, Hin'.
  destruct Hin as (c0 & Hc0 & Hin), Hin' as (c0' & Hc0' & Hin').
  apply in_map_iff in Hin, Hin'.
  destruct Hin as (q & [= <- <-] & Hq), Hin' as (q' & [= Hid <-] & Hq').
  apply filter_In in Hq, Hq'. destruct Hq as [Hq Hc], Hq' as [Hq' Hc'].
  assert (q' = q)
    by (now apply (NoDup_map_injective Question.id all_questions Hids)).
  subst q'. f_equal. now apply (Hone q).
Qed.

(** X24. Extraction followed by correction, for a configuration with
    pairwise distinct categories and question ids in which no question
    applies to two categories: applying no correction to the extracted
    answers returns them unchanged, and applying any corrections returns
    as many records, with the same question ids, question texts and
    categories in the same order. *)
Theorem extract_then_apply_corrections
    (product_name model_choice : string) (questions_config : QuestionsConfig.t)
    (w : World) (result : ProductExtractionResult.t) :
  let categories := QuestionsConfig.categories questions_config in
  let all_questions := QuestionsConfig.questions questions_config in
  NoDup categories ->
  NoDup (map Question.id all_questions) ->
  (forall q c c', In q all_questions -> In c categories -> In c' categories ->
     applies_to c q = true -> applies_to c' q = true -> c = c') ->
  fst (extract_answers_for_product product_name questions_config true
         model_choice w) = Some result ->
  let answers := ProductExtractionResult.answers result in
  apply_corrections answers [] product_name = answers
  /\ forall corrections_list,
       map record_base (apply_corrections answers corrections_list product_name)
       = map record_base answers
       /\ length (apply_corrections answers corrections_list product_name)
          = length answers.
Proof.
  intros categories all_questions Hcats Hids Hone Hrun answers.
  assert (Hnd : NoDup (map AnswerRecord.question_id answers)).
  { subst answers. unfold extract_answers_for_product in Hrun.
    destruct (_get_full_markdown_for_product product_name) as [md|];
      [|discriminate].
    destruct (negb (PyStr.truthy md)); [discriminate|].
    fold categories all_questions in Hrun.
    destruct (negb (nonempty categories) || negb (nonempty all_questions)).
    { injection Hrun as <-. constructor. }
    unfold bind, ret in Hrun.
    pose proof (extract_categories_distinct_ids product_name
                  (_truncate_markdown md product_name) model_choice
                  all_questions categories w Hcats Hids Hone) as Hd.
    destruct (extract_categories _ _ _ _ categories [] w) as [a w'].
    injection Hrun as <-. exact Hd. }
  split; [now apply apply_no_corrections_distinct|].
  intros corrections_list.
  assert (Hbase : map record_base
                    (apply_corrections answers corrections_list product_name)
                  = map record_base answers)
    by (now rewrite apply_corrections_bases, apply_no_corrections_distinct).
  split; [exact Hbase|].
  apply (f_equal (@length _)) in Hbase. now rewrite !length_map in Hbase.
Qed.

End Pipeline2.

(* ===================================================================== *)
(** * The further properties in the AlphaCare scenario *)
(* ===================================================================== *)

(** X6 at a run whose first reply is refused and whose second is the
    dental object. *)
Lemma call_llm_with_retry_response_shape_witness :
  Scenario.dental_response <> EmptyString
  /\ ((String.prefix "{" (PyStr.strip Scenario.dental_response) = true
       /\ PyStr.endswith (PyStr.strip Scenario.dental_response) "}" = true)
      \/ (String.prefix "[" (PyStr.strip Scenario.dental_response) = true
          /\ PyStr.endswith (PyStr.strip Scenario.dental_response) "]" = true)).
Proof.
  eapply (call_llm_with_retry_response_shape [] "o4-mini" 32000 3
            Cases.second_try).
  reflexivity.
Defined.

(** X10 at the configuration whose only category has no question. *)
Lemma extract_nothing_to_ask_witness :
  extract_answers_for_product "AlphaCare" Cases.orphan_config true "o4-mini"
    (Cases.one_reply Scenario.dental_response)
  = (Some (ProductExtractionResult.mk "AlphaCare" []),
     Cases.one_reply Scenario.dental_response).
Proof.
  apply (extract_nothing_to_ask "AlphaCare" "o4-mini" Scenario.alpha_text
           Cases.orphan_config (Cases.one_reply Scenario.dental_response)).
  - reflexivity.
  - intros c [<-|[]]. reflexivity.
Defined.

(** X11 at the two dental questions. *)
Lemma extract_batch_mode_not_implemented_witness :
  exists result,
    extract_answers_for_product "AlphaCare" Scenario.dental_config false
      "o4-mini" (Cases.one_reply Scenario.dental_response)
    = (Some result, Cases.one_reply Scenario.dental_response)
    /\ map AnswerRecord.status (ProductExtractionResult.answers result)
       = [error_not_implemented; error_not_implemented]
    /\ map AnswerRecord.category (ProductExtractionResult.answers result)
       = ["Dental"; "Dental"].
Proof.
  destruct (extract_batch_mode_not_implemented "AlphaCare" "o4-mini"
              Scenario.alpha_text Scenario.dental_config
              (Cases.one_reply Scenario.dental_response))
    as (result & Hrun & Hfields).
  - reflexivity.
  - discriminate.
  - discriminate.
  - exists result. split; [exact Hrun|]. split.
    + apply (f_equal (map (fun x => snd (fst x)))) in Hfields.
      rewrite !map_map in Hfields. exact Hfields.
    + apply (f_equal (map (fun x => snd (fst (fst x))))) in Hfields.
      rewrite !map_map in Hfields. exact Hfields.
Defined.


(** X14 at the dental configuration. *)
Lemma extract_records_follow_configuration_witness :
  match fst (extract_answers_for_product "AlphaCare" Scenario.dental_config true
               "o4-mini" (Cases.one_reply Scenario.dental_response))
  with
  | Some result =>
      map record_base (ProductExtractionResult.answers result)
      = [("q1", "Is dental care covered?", "Dental");
         ("q2", "Is there a waiting period?", "Dental")]
  | None => False
  end.
Proof.
  destruct (fst (extract_answers_for_product "AlphaCare" Scenario.dental_config
                   true "o4-mini" (Cases.one_reply Scenario.dental_response)))
    as [result|] eqn:Hrun; [|discriminate Hrun].
  destruct (extract_records_follow_configuration "AlphaCare" "o4-mini"
              Scenario.dental_config
              (Cases.one_reply Scenario.dental_response) result Hrun)
    as [Hbases _].
  exact Hbases.
Defined.

(** X15 at the three categories of which the middle one fails. *)
Lemma extract_status_per_category_witness :
  match fst (extract_answers_for_product "AlphaCare" Scenario.three_config true
               "o4-mini" Cases.middle_fails)
  with
  | Some result =>
      Forall category_record_shape (ProductExtractionResult.answers result)
  | None => False
  end.
Proof.
  destruct (fst (extract_answers_for_product "AlphaCare" Scenario.three_config
                   true "o4-mini" Cases.middle_fails))
    as [result|] eqn:Hrun; [|discriminate Hrun].
  destruct (extract_status_per_category "AlphaCare" "o4-mini"
              Scenario.three_config Cases.middle_fails result)
    as [_ Hshape]; [|exact Hrun|exact Hshape].
  repeat constructor; simpl; intuition discriminate.
Defined.

(** X17 at the review response of the scenario. *)
Lemma review_success_inversion_witness :
  exists d corrections_list,
    @decode_response Scenario.collaborators Scenario.review_response_text
    = Some (JObj d)
    /\ PyDict.get d "corrections" = Some (JArr corrections_list)
    /\ [Scenario.full_item] = filter valid_correction_item corrections_list.
Proof.
  destruct (review_success_inversion "AlphaCare" "o4-mini"
              [Scenario.r1; Scenario.r2]
              (Cases.one_reply Scenario.review_response_text)
              [Scenario.full_item])
    as (md & response & d & arr & _ & Hcall & Hdec & Hget & Hfilter & _).
  - reflexivity.
  - injection Hcall as <-. now exists d, arr.
Defined.

(** X19 at a review response in braces that is no JSON. *)
Lemma review_malformed_response_witness :
  fst (self_correct_answers "AlphaCare" [Scenario.r1; Scenario.r2] "o4-mini"
         (Cases.one_reply Cases.broken_response)) = inr None.
Proof.
  erewrite (proj1 (review_malformed_response "AlphaCare" "o4-mini"
                     Scenario.alpha_text Cases.broken_response
                     [Scenario.r1; Scenario.r2]
                     (Cases.one_reply Cases.broken_response) _ eq_refl eq_refl)
              eq_refl).
  reflexivity.
Defined.

(** X24 at the dental configuration and one correction. *)
Lemma extract_then_apply_corrections_witness :
  match fst (extract_answers_for_product "AlphaCare" Scenario.dental_config true
               "o4-mini" (Cases.one_reply Scenario.dental_response))
  with
  | Some result =>
      apply_corrections (ProductExtractionResult.answers result) [] "AlphaCare"
      = ProductExtractionResult.answers result
      /\ length (apply_corrections (ProductExtractionResult.answers result)
                   [Scenario.c9; Scenario.c1] "AlphaCare") = 2
  | None => False
  end.
Proof.
  destruct (fst (extract_answers_for_product "AlphaCare" Scenario.dental_config
                   true "o4-mini" (Cases.one_reply Scenario.dental_response)))
    as [result|] eqn:Hrun; [|discriminate Hrun].
  destruct (extract_then_apply_corrections "AlphaCare" "o4-mini"
              Scenario.dental_config
              (Cases.one_reply Scenario.dental_response) result)
    as [Hsame Hany].
  - repeat constructor; simpl; intuition discriminate.
  - repeat constructor; simpl; intuition discriminate.
  - intros q c c' _ [<-|[]] [<-|[]] _ _. reflexivity.
  - exact Hrun.
  - split; [exact Hsame|].
    destruct (Hany [Scenario.c9; Scenario.c1]) as [_ ->].
    injection Hrun as <-. reflexivity.
Defined.

(* ===================================================================== *)
(** * The applicator on dictionaries *)
(* ===================================================================== *)

Section DictsFacts.
Context `{Collaborators}.

Implicit Types (m : PyDict.t AnswerDict.t) (correction : PyDict.t json).

Local Abbreviation as_dicts :=
  (map (fun item : string * AnswerRecord.t =>
          (fst item, AnswerDict.of_record (snd item)))).

Local Abbreviation filed m :=
  (Forall (fun item : string * AnswerDict.t =>
             AnswerDict.question_id (snd item) = fst item) m).

Lemma get_in {V} (d : PyDict.t V) (k : string) (v : V) :
  PyDict.get d k = Some v -> In (k, v) d.
Proof.
  induction d as [|[k' v'] d IH]; simpl; [discriminate|].
  destruct (String.eqb_spec k' k) as [->|Hne].
  - intros [= ->]. now left.
  - intros Hget. right. now apply IH.
Qed.

Lemma get_as_dicts (d : PyDict.t AnswerRecord.t) (k : string) :
  PyDict.get (as_dicts d) k = option_map AnswerDict.of_record (PyDict.get d k).
Proof.
  induction d as [|[k' v'] d IH]; simpl; [reflexivity|].
  now destruct (k' =? k)%string.
Qed.

Lemma set_as_dicts (d : PyDict.t AnswerRecord.t) (k : string) (v : AnswerRecord.t) :
  PyDict.set (as_dicts d) k (AnswerDict.of_record v) = as_dicts (PyDict.set d k v).
Proof.
  induction d as [|[k' v'] d IH]; simpl; [reflexivity|].
  destruct (k' =? k)%string; simpl; [reflexivity|]. now rewrite IH.
Qed.

Lemma answers_map_as_dicts (original_answers : list AnswerRecord.t) :
  Dicts.answers_map (map AnswerDict.of_record original_answers)
  = as_dicts (answers_map original_answers).
Proof.
  unfold Dicts.answers_map, answers_map.
  change (@nil (string * AnswerDict.t)) with (as_dicts []).
  generalize (@nil (string * AnswerRecord.t)) as d.
  induction original_answers as [|a l IH]; intros d; simpl; [reflexivity|].
  change (AnswerDict.question_id (AnswerDict.of_record a))
    with (AnswerRecord.question_id a).
  now rewrite set_as_dicts, IH.
Qed.

Lemma get_of_correction (c : Correction.t) :
  PyDict.get (Dicts.of_correction c) "question_id"
  = option_map JStr (Correction.question_id c)
  /\ PyDict.get (Dicts.of_correction c) "suggested_correction"
     = option_map JStr (Correction.suggested_correction c)
  /\ PyDict.get (Dicts.of_correction c) "reason"
     = option_map JStr (Correction.reason c).
Proof.
  destruct c as [[q|] [o|] [s|] [r|]]; repeat split; reflexivity.
Qed.

(** One turn of the loop on a correction of the data model. *)
Lemma apply_correction_of_correction (d : PyDict.t AnswerRecord.t)
    (c : Correction.t) :
  Dicts.apply_correction (as_dicts d) (Dicts.of_correction c)
  = inr (as_dicts (apply_correction d c)).
Proof.
  destruct (get_of_correction c) as (Hq & Hs & Hr).
  unfold Dicts.apply_correction, apply_correction. rewrite Hq.
  destruct (Correction.question_id c) as [q|]; cbn [option_map]; [|reflexivity].
  rewrite get_as_dicts.
  destruct (PyDict.get d q) as [ans|]; cbn [option_map]; [|reflexivity].
  rewrite <- set_as_dicts. do 2 f_equal.
  unfold Dicts.corrected_record, corrected_record, AnswerDict.of_record.
  rewrite Hs, Hr. cbn.
  destruct (Correction.suggested_correction c), (Correction.reason c); reflexivity.
Qed.

Lemma apply_each_of_corrections (corrections_list : list Correction.t) :
  forall d : PyDict.t AnswerRecord.t,
    Dicts.apply_each (map Dicts.of_correction corrections_list) (as_dicts d)
    = inr (as_dicts (fold_left apply_correction corrections_list d)).
Proof.
  induction corrections_list as [|c cs IH]; intros d; simpl; [reflexivity|].
  now rewrite apply_correction_of_correction, IH.
Qed.

(** On answers and corrections of the data model the applicator on
    dictionaries raises nothing and returns what [apply_corrections]
    returns. *)
Lemma apply_corrections_of_corrections
    (original_answers : list AnswerRecord.t)
    (corrections_list : list Correction.t) (product_name : string) :
  Dicts.apply_corrections (map AnswerDict.of_record original_answers)
    (map Dicts.of_correction corrections_list) product_name
  = inr (map AnswerDict.of_record
           (apply_corrections original_answers corrections_list product_name)).
Proof.
  unfold Dicts.apply_corrections, apply_corrections.
  rewrite answers_map_as_dicts, apply_each_of_corrections.
  unfold PyDict.values. now rewrite !map_map.
Qed.

(** A turn of the loop on a correction whose question id can be hashed:
    no exception, the same keys, every record still under its own id. *)
Lemma apply_correction_hashable m correction :
  Dicts.hashable_id correction = true ->
  exists m',
    Dicts.apply_correction m correction = inr m'
    /\ PyDict.keys m' = PyDict.keys m
    /\ (filed m -> filed m').
Proof.
  unfold Dicts.hashable_id, Dicts.apply_correction.
  destruct (PyDict.get correction "question_id") as [[| | | |q| |]|];
    try discriminate; intros _; try (now exists m).
  destruct (PyDict.get m q) as [ans|] eqn:Hget; [|now exists m].
  eexists. split; [reflexivity|]. split.
  - apply keys_set_present. congruence.
  - intros Hfiled. rewrite Forall_forall in *. intros item Hin.
    apply in_set in Hin. destruct Hin as [Hin| ->]; [now apply Hfiled|].
    cbn. exact (Hfiled _ (get_in _ _ _ Hget)).
Qed.

Lemma apply_each_hashable (corrections_list : list (PyDict.t json)) :
  forall m,
    forallb Dicts.hashable_id corrections_list = true ->
    exists m',
      Dicts.apply_each corrections_list m = inr m'
      /\ PyDict.keys m' = PyDict.keys m
      /\ (filed m -> filed m').
Proof.
  induction corrections_list as [|c cs IH]; intros m Hall; simpl.
  - now exists m.
  - simpl in Hall. apply andb_true_iff in Hall. destruct Hall as [Hc Hcs].
    destruct (apply_correction_hashable m c Hc) as (m1 & -> & Hkeys1 & Hfiled1).
    destruct (IH m1 Hcs) as (m' & -> & Hkeys & Hfiled).
    exists m'. split; [reflexivity|]. split; [congruence | tauto].
Qed.

Lemma apply_each_app (before after : list (PyDict.t json)) :
  forall m,
    Dicts.apply_each (before ++ after)%list m
    = match Dicts.apply_each before m with
      | inl e => inl e
      | inr m' => Dicts.apply_each after m'
      end.
Proof.
  induction before as [|c cs IH]; intros m; simpl; [reflexivity|].
  destruct (Dicts.apply_correction m c); [reflexivity | apply IH].
Qed.

Lemma dicts_answers_map_filed (original_answers : list AnswerDict.t) :
  forall m,
    filed m ->
    filed (fold_left (fun m ans => PyDict.set m (AnswerDict.question_id ans) ans)
             original_answers m).
Proof.
  induction original_answers as [|a l IH]; intros m Hm; simpl; [assumption|].
  apply IH. rewrite Forall_forall in *. intros item Hin.
  apply in_set in Hin. destruct Hin as [Hin| ->]; [now apply Hm | reflexivity].
Qed.

Lemma dicts_answers_map_keys (original_answers : list AnswerDict.t) q_id :
  forall m,
    In q_id (PyDict.keys
               (fold_left (fun m ans => PyDict.set m (AnswerDict.question_id ans) ans)
                  original_answers m))
    <-> In q_id (PyDict.keys m)
        \/ In q_id (map AnswerDict.question_id original_answers).
Proof.
  induction original_answers as [|a l IH]; intros m; simpl; [tauto|].
  rewrite IH, in_keys_set. intuition congruence.
Qed.

(** With question ids that can all be hashed, the applicator on
    dictionaries returns a list whose question ids are exactly those of
    the original answers; and a correction of the list whose question id
    is not among them is dropped. *)
Lemma apply_corrections_hashable_question_ids
    (original_answers : list AnswerDict.t)
    (corrections_list : list (PyDict.t json)) (product_name : string) :
  forallb Dicts.hashable_id corrections_list = true ->
  exists final_answers_list,
    Dicts.apply_corrections original_answers corrections_list product_name
    = inr final_answers_list
    /\ (forall q_id,
          In q_id (map AnswerDict.question_id final_answers_list)
          <-> In q_id (map AnswerDict.question_id original_answers))
    /\ (forall before correction after,
          corrections_list = (before ++ correction :: after)%list ->
          (forall q_id,
              PyDict.get correction "question_id" = Some (JStr q_id) ->
              ~ In q_id (map AnswerDict.question_id original_answers)) ->
          Dicts.apply_corrections original_answers (before ++ after)%list
            product_name
          = inr final_answers_list).
Proof.
  intros Hall. unfold Dicts.apply_corrections.
  assert (Hfiled0 : filed (Dicts.answers_map original_answers)).
  { apply dicts_answers_map_filed. constructor. }
  destruct (apply_each_hashable corrections_list
              (Dicts.answers_map original_answers) Hall)
    as (m' & Hrun & Hkeys & Hfiled).
  rewrite Hrun. eexists. split; [reflexivity|]. split.
  - intros q_id.
    assert (Hids : map AnswerDict.question_id (PyDict.values m') = PyDict.keys m').
    { unfold PyDict.values, PyDict.keys. rewrite map_map.
      apply map_ext_in. intros item Hin.
      specialize (Hfiled Hfiled0). rewrite Forall_forall in Hfiled.
      now apply Hfiled. }
    rewrite Hids, Hkeys. unfold Dicts.answers_map.
    rewrite dicts_answers_map_keys. simpl. tauto.
  - intros before correction after -> Hunknown.
    rewrite forallb_app in Hall. apply andb_true_iff in Hall.
    destruct Hall as [Hbefore Hrest]. simpl in Hrest.
    apply andb_true_iff in Hrest. destruct Hrest as [Hc Hafter].
    rewrite apply_each_app in Hrun |- *.
    destruct (apply_each_hashable before (Dicts.answers_map original_answers)
                Hbefore) as (m1 & Hrun1 & Hkeys1 & _).
    rewrite Hrun1 in Hrun |- *. simpl in Hrun.
    assert (Hsame : Dicts.apply_correction m1 correction = inr m1).
    { unfold Dicts.apply_correction. unfold Dicts.hashable_id in Hc.
      destruct (PyDict.get correction "question_id") as [[| | | |q| |]|];
        try discriminate; try reflexivity.
      destruct (PyDict.get m1 q) as [ans|] eqn:Hget; [|reflexivity].
      exfalso. apply (Hunknown q eq_refl).
      apply get_in in Hget.
      assert (Hin : In q (PyDict.keys m1)).
      { unfold PyDict.keys. apply in_map_iff. now exists (q, ans). }
      rewrite Hkeys1 in Hin. unfold Dicts.answers_map in Hin.
      apply dicts_answers_map_keys in Hin. simpl in Hin. tauto. }
    rewrite Hsame in Hrun. now rewrite Hrun.
Qed.

(** C9. The claim fails on a correction whose question id is a list or an
    object, which the reviewer lets through: once the corrections before
    it are applied, the membership test raises [TypeError], the later
    corrections are not looked at, and no list of answers is returned. *)
Theorem apply_corrections_unhashable_question_id_raises
    (original_answers : list AnswerDict.t)
    (before after : list (PyDict.t json)) (correction : PyDict.t json)
    (q_id : json) (product_name : string) :
  forallb Dicts.hashable_id before = true ->
  PyDict.get correction "question_id" = Some q_id ->
  Dicts.hashable q_id = false ->
  Dicts.apply_corrections original_answers (before ++ correction :: after)%list
    product_name
  = inl TypeError.
Proof.
  intros Hbefore Hget Hunhashable. unfold Dicts.apply_corrections.
  rewrite apply_each_app.
  destruct (apply_each_hashable before (Dicts.answers_map original_answers)
              Hbefore) as (m1 & -> & _).
  simpl. unfold Dicts.apply_correction. rewrite Hget.
  destruct q_id; try discriminate Hunhashable; reflexivity.
Qed.

End DictsFacts.

(** C9 at the answer to [q1] and one correction whose question id is the
    list that holds [q1]: the correction has the four required keys, so
    the reviewer hands it over, and the applicator raises. *)
Lemma apply_corrections_unhashable_question_id_raises_witness :
  valid_correction_item (JObj Faults.list_id_correction) = true
  /\ @Dicts.apply_corrections Scenario.collaborators
       [AnswerDict.of_record Scenario.r1] [Faults.list_id_correction] "AlphaCare"
     = inl TypeError.
Proof.
  split; [reflexivity|].
  apply (@apply_corrections_unhashable_question_id_raises Scenario.collaborators
           [AnswerDict.of_record Scenario.r1] [] [] Faults.list_id_correction
           (JArr [JStr "q1"]) "AlphaCare"); reflexivity.
Defined.

(** The same answer and the same correction with the string [q1] as its
    question id: the answer is corrected. *)
Example apply_corrections_string_question_id :
  @Dicts.apply_corrections Scenario.collaborators
    [AnswerDict.of_record Scenario.r1]
    [PyDict.set Faults.list_id_correction "question_id" (JStr "q1")] "AlphaCare"
  = inr [AnswerDict.mk "q1" "Is dental care covered?" "No" "Dental" corrected
           (Some (JStr "Section 3.2"))].
Proof. reflexivity. Qed.

(* ===================================================================== *)
(** * Runs with a decoder that can give up *)
(* ===================================================================== *)

Section FullFacts.
Context `{Collaborators}.
Variable decoder_gives_up : string -> bool.

Section Categories.
Variables (product_name product_markdown_truncated model_choice : string).
Variable all_questions : list Question.t.

Local Abbreviation full_categories :=
  (Full.extract_categories decoder_gives_up product_name
     product_markdown_truncated model_choice all_questions).
Local Abbreviation full_category :=
  (Full.extract_category decoder_gives_up product_name
     product_markdown_truncated model_choice all_questions).
Local Abbreviation run_categories :=
  (extract_categories product_name product_markdown_truncated model_choice
     all_questions).
Local Abbreviation run_category :=
  (extract_category product_name product_markdown_truncated model_choice
     all_questions).
Local Abbreviation requests :=
  (category_requests product_name product_markdown_truncated model_choice
     all_questions).

(** One turn of the loop: it ends as in [extract_category], in the same
    world, unless the decoder gives up on the response the retrying
    caller handed over. *)
Lemma full_extract_category_cases (category : string) (w : World) :
  snd (full_category category w) = snd (run_category category w)
  /\ (fst (full_category category w) = inr (fst (run_category category w))
      \/ (fst (full_category category w) = inl RecursionError
          /\ exists response_str,
               PyStr.truthy response_str = true
               /\ json_shaped (PyStr.strip response_str) = true
               /\ Full.decode_gives_up decoder_gives_up response_str = true)).
Proof.
  unfold Full.extract_category, extract_category.
  destruct (questions_for_category category all_questions) as [|q qs];
    [split; [reflexivity | now left]|].
  unfold bind.
  destruct (_call_llm_with_retry _ _ _ _ w) as [[response|] w1] eqn:Hcall;
    [|split; [reflexivity | now left]].
  destruct (retry_attempts_accepts_truthy _ _ _ _ _ _ _ Hcall) as [Htruthy Hshape].
  rewrite Htruthy.
  destruct (Full.decode_gives_up decoder_gives_up response) eqn:Hup;
    unfold ret; cbn [fst snd]; (split; [reflexivity|]); [right | now left].
  split; [reflexivity|]. now exists response.
Qed.

(** A loop that returns has run as [extract_categories] does. *)
Lemma full_extract_categories_returns (categories : list string) :
  forall acc w answers w',
    full_categories categories acc w = (inr answers, w') ->
    run_categories categories acc w = (answers, w').
Proof.
  induction categories as [|c cs IH]; intros acc w answers w'; simpl.
  - unfold ret. now intros [= <- <-].
  - unfold bind.
    destruct (full_extract_category_cases c w) as [Hw Hres].
    destruct (Full.extract_category _ _ _ _ _ c w) as [r w1].
    destruct (extract_category _ _ _ _ c w) as [appended w0].
    cbn [fst snd] in Hw, Hres. subst w0.
    destruct Hres as [-> | [-> _]]; [apply IH | unfold ret; discriminate].
Qed.

(** A loop that raises has met a response on which the decoder gives
    up. *)
Lemma full_extract_categories_raises (categories : list string) :
  forall acc w e w',
    full_categories categories acc w = (inl e, w') ->
    e = RecursionError
    /\ exists response_str,
         PyStr.truthy response_str = true
         /\ json_shaped (PyStr.strip response_str) = true
         /\ Full.decode_gives_up decoder_gives_up response_str = true.
Proof.
  induction categories as [|c cs IH]; intros acc w e w'; simpl.
  - unfold ret. discriminate.
  - unfold bind.
    destruct (full_extract_category_cases c w) as [_ Hres].
    destruct (Full.extract_category _ _ _ _ _ c w) as [r w1].
    cbn [fst] in Hres.
    destruct Hres as [-> | [-> Hresponse]]; [apply IH|].
    unfold ret. intros [= <- _]. now split.
Qed.

(** The requests of the loop, category by category. *)
Lemma extract_categories_requests (categories : list string) :
  forall w,
    exists counts,
      length counts = length categories
      /\ llm_calls (snd (run_categories categories [] w))
         = (llm_calls w ++ requests categories counts)%list
      /\ Forall2 (category_budget all_questions) categories counts.
Proof.
  induction categories as [|c cs IH]; intros w.
  - exists []. simpl. rewrite app_nil_r. repeat split. constructor.
  - rewrite extract_categories_cons. cbn [snd].
    destruct (IH (snd (run_category c w))) as (rest & Hlen & Hrest & Hbudget).
    destruct (extract_category_cases product_name product_markdown_truncated
                model_choice all_questions c w)
      as [[Hnil Hnone]|(Hne & (k & Hk & Hcalls) & _)].
    + exists (0 :: rest). cbv zeta in Hnil.
      rewrite Hnone in Hrest. cbn [snd] in Hrest.
      rewrite Hnone. cbn [snd length category_requests repeat app].
      repeat split; [now rewrite Hlen | exact Hrest |].
      constructor; [|exact Hbudget].
      unfold category_budget, has_questions. now rewrite Hnil.
    + exists (k :: rest). cbn [length category_requests].
      repeat split; [now rewrite Hlen | |].
      * rewrite Hrest, Hcalls, <- app_assoc. reflexivity.
      * constructor; [|exact Hbudget].
        unfold category_budget, has_questions.
        destruct (questions_for_category c all_questions); [contradiction|].
        exact Hk.
Qed.

End Categories.

(** A run of the extractor that returns, with a result or with [None],
    has run as [extract_answers_for_product] does. *)
Lemma full_extract_returns
    (product_name model_choice : string) (questions_config : QuestionsConfig.t)
    (extract_by_category : bool) (w w' : World)
    (outcome : option ProductExtractionResult.t) :
  Full.extract_answers_for_product decoder_gives_up product_name
    questions_config extract_by_category model_choice w
  = (inr outcome, w') ->
  extract_answers_for_product product_name questions_config
    extract_by_category model_choice w
  = (outcome, w').
Proof.
  unfold Full.extract_answers_for_product, extract_answers_for_product.
  destruct (_get_full_markdown_for_product product_name) as [md|];
    [|unfold ret; now intros [= <- <-]].
  destruct (negb (PyStr.truthy md)); [unfold ret; now intros [= <- <-]|].
  destruct (negb (nonempty (QuestionsConfig.categories questions_config))
            || negb (nonempty (QuestionsConfig.questions questions_config)));
    [unfold ret; now intros [= <- <-]|].
  destruct extract_by_category; [|unfold ret; now intros [= <- <-]].
  unfold bind.
  destruct (Full.extract_categories _ _ _ _ _ _ _ w) as [[e|answers] w1] eqn:Hrun;
    unfold ret; [discriminate|].
  intros [= <- <-].
  now rewrite (full_extract_categories_returns _ _ _ _ _ _ _ _ _ Hrun).
Qed.

(** With a decoder that never gives up, [Full] is the model above. *)
Lemma full_extract_without_faults
    (product_name model_choice : string) (questions_config : QuestionsConfig.t)
    (extract_by_category : bool) (w : World) :
  (forall s, decoder_gives_up s = false) ->
  Full.extract_answers_for_product decoder_gives_up product_name
    questions_config extract_by_category model_choice w
  = (inr (fst (extract_answers_for_product product_name questions_config
                 extract_by_category model_choice w)),
     snd (extract_answers_for_product product_name questions_config
            extract_by_category model_choice w)).
Proof.
  intros Hnever.
  destruct (Full.extract_answers_for_product decoder_gives_up product_name
              questions_config extract_by_category model_choice w)
    as [[e|outcome] w'] eqn:Hrun.
  - exfalso. revert Hrun. unfold Full.extract_answers_for_product.
    destruct (_get_full_markdown_for_product product_name) as [md|];
      [|unfold ret; discriminate].
    destruct (negb (PyStr.truthy md)); [unfold ret; discriminate|].
    destruct (negb (nonempty (QuestionsConfig.categories questions_config))
              || negb (nonempty (QuestionsConfig.questions questions_config)));
      [unfold ret; discriminate|].
    destruct extract_by_category; [|unfold ret; discriminate].
    unfold bind.
    destruct (Full.extract_categories _ _ _ _ _ _ _ w) as [[e'|answers] w1] eqn:Hloop;
      unfold ret; [|discriminate].
    intros _.
    destruct (full_extract_categories_raises _ _ _ _ _ _ _ _ _ Hloop)
      as (_ & response & _ & _ & Hup).
    unfold Full.decode_gives_up in Hup. rewrite Hnever in Hup. discriminate.
  - now rewrite (full_extract_returns _ _ _ _ _ _ _ Hrun).
Qed.

(** X9. The extractor ends in one of three ways. It returns [None]
    exactly when the provider has no text for the product. With a text it
    returns a result that carries the product name, the one
    [extract_answers_for_product] above computes, unless, category by
    category, the retrying caller hands over a response on which the
    decoder gives up: then [RecursionError] leaves the function, and that
    is the only exception that does. *)
Theorem extract_fails_only_without_text
    (product_name model_choice : string) (questions_config : QuestionsConfig.t)
    (extract_by_category : bool) (w : World) :
  let run := Full.extract_answers_for_product decoder_gives_up product_name
               questions_config extract_by_category model_choice w in
  (fst run = inr None <-> _get_full_markdown_for_product product_name = None)
  /\ (forall md,
        _get_full_markdown_for_product product_name = Some md ->
        (exists result,
            fst run = inr (Some result)
            /\ ProductExtractionResult.product_name result = product_name
            /\ extract_answers_for_product product_name questions_config
                 extract_by_category model_choice w
               = (Some result, snd run))
        \/ (fst run = inl RecursionError
            /\ extract_by_category = true
            /\ exists response_str,
                 PyStr.truthy response_str = true
                 /\ json_shaped (PyStr.strip response_str) = true
                 /\ Full.decode_gives_up decoder_gives_up response_str = true)).
Proof.
  intros run.
  assert (Htext : forall md,
            _get_full_markdown_for_product product_name = Some md ->
            (exists result,
                fst run = inr (Some result)
                /\ ProductExtractionResult.product_name result = product_name)
            \/ (fst run = inl RecursionError
                /\ extract_by_category = true
                /\ exists response_str,
                     PyStr.truthy response_str = true
                     /\ json_shaped (PyStr.strip response_str) = true
                     /\ Full.decode_gives_up decoder_gives_up response_str = true)).
  { intros md Hmd. subst run. unfold Full.extract_answers_for_product.
    rewrite Hmd, (provider_text_truthy _ _ Hmd). cbn [negb].
    destruct (negb (nonempty (QuestionsConfig.categories questions_config))
              || negb (nonempty (QuestionsConfig.questions questions_config))).
    { left. eexists. unfold ret. cbn [fst]. now split. }
    destruct extract_by_category.
    2:{ left. eexists. unfold ret. cbn [fst]. now split. }
    unfold bind.
    destruct (Full.extract_categories _ _ _ _ _ _ _ w) as [[e|answers] w1] eqn:Hloop;
      unfold ret; cbn [fst].
    - right.
      destruct (full_extract_categories_raises _ _ _ _ _ _ _ _ _ Hloop)
        as (-> & Hresponse).
      now repeat split.
    - left. eexists. now split. }
  split.
  - split.
    + intros Hnone.
      destruct (_get_full_markdown_for_product product_name) as [md|] eqn:Hmd;
        [|reflexivity].
      destruct (Htext md eq_refl) as [(result & Hrun & _)|(Hrun & _)];
        rewrite Hrun in Hnone; discriminate.
    + intros Hmd. subst run. unfold Full.extract_answers_for_product.
      now rewrite Hmd.
  - intros md Hmd.
    destruct (Htext md Hmd) as [(result & Hrun & Hname)|Hraise];
      [left | right; exact Hraise].
    exists result. repeat split; try assumption.
    apply full_extract_returns. rewrite <- Hrun. apply surjective_pairing.
Qed.

(** X12. A by-category extraction that returns a result has sent, on top
    of the requests sent before and in the order of the configured
    categories, the request of each category a number of times: at least
    once and at most [MAX_LLM_RETRIES] times for a category that has a
    question, never for a category that has none. Every request is in
    JSON mode, for the chosen model, with a limit of 32000 tokens. *)
Theorem extract_call_budget
    (product_name model_choice md : string) (questions_config : QuestionsConfig.t)
    (w w' : World) (result : ProductExtractionResult.t) :
  _get_full_markdown_for_product product_name = Some md ->
  Full.extract_answers_for_product decoder_gives_up product_name
    questions_config true model_choice w
  = (inr (Some result), w') ->
  let categories := QuestionsConfig.categories questions_config in
  let all_questions := QuestionsConfig.questions questions_config in
  let asked := filter (has_questions all_questions) categories in
  exists counts,
    length counts = length categories
    /\ Forall2 (category_budget all_questions) categories counts
    /\ llm_calls w'
       = (llm_calls w
            ++ category_requests product_name (_truncate_markdown md product_name)
                 model_choice all_questions categories counts)%list
    /\ length asked
       <= length (category_requests product_name
                    (_truncate_markdown md product_name) model_choice
                    all_questions categories counts)
       <= 3 * length asked
    /\ Forall (fun request =>
                 Request.json_mode request = true
                 /\ Request.model request = model_choice
                 /\ Request.max_tokens request = 32000%N)
         (category_requests product_name (_truncate_markdown md product_name)
            model_choice all_questions categories counts).
Proof.
  intros Hmd Hfull categories all_questions asked.
  apply full_extract_returns in Hfull.
  assert (Hloop : w' = snd (extract_categories product_name
                              (_truncate_markdown md product_name) model_choice
                              all_questions categories [] w)).
  { subst categories all_questions.
    destruct (QuestionsConfig.categories questions_config) as [|c cs] eqn:Hcats.
    { revert Hfull. unfold extract_answers_for_product.
      rewrite Hmd, (provider_text_truthy _ _ Hmd), Hcats. cbn.
      unfold ret. now intros [= _ <-]. }
    destruct (QuestionsConfig.questions questions_config) as [|q qs] eqn:Hqs.
    { revert Hfull. unfold extract_answers_for_product.
      rewrite Hmd, (provider_text_truthy _ _ Hmd), Hcats, Hqs.
      cbn [negb nonempty orb]. unfold ret. intros [= _ <-].
      rewrite extract_categories_idle; [reflexivity|]. reflexivity. }
    rewrite (extract_by_category_unfold _ _ _ md) in Hfull; try assumption;
      try (rewrite ?Hcats, ?Hqs; discriminate).
    rewrite Hcats, Hqs in Hfull. now injection Hfull as _ <-. }
  destruct (extract_categories_requests product_name
              (_truncate_markdown md product_name) model_choice all_questions
              categories w) as (counts & Hlen & Hcalls & Hbudget).
  destruct (extract_categories_calls product_name
              (_truncate_markdown md product_name) model_choice all_questions
              categories w) as (added & Hadded & Hlow & Hhigh & Hall).
  rewrite Hcalls in Hadded. apply app_inv_head in Hadded. subst added.
  exists counts. rewrite Hloop. unfold MAX_LLM_RETRIES in Hhigh.
  repeat split; assumption.
Qed.

(** With a text at hand the reviewer is the retrying caller followed by
    the parse of what it returns. *)
Lemma full_self_correct_answers_unfold
    (product_name model_choice md : string)
    (extracted_answers : list AnswerRecord.t) (w : World) :
  _get_full_markdown_for_product product_name = Some md ->
  let call :=
    _call_llm_with_retry
      (review_messages product_name (_truncate_markdown md product_name)
         extracted_answers)
      model_choice 32000 MAX_LLM_RETRIES w in
  Full.self_correct_answers decoder_gives_up product_name extracted_answers
    model_choice w
  = (match fst call with
     | Some response_str => Full.review_response decoder_gives_up response_str
     | None => inr None
     end, snd call).
Proof.
  intros Hmd call. subst call. unfold Full.self_correct_answers.
  rewrite Hmd, (provider_text_truthy _ _ Hmd). cbn [negb]. unfold bind.
  destruct (_call_llm_with_retry _ _ _ _ w) as [[response|] w'] eqn:Hcall;
    cbn [fst snd]; [|reflexivity].
  now destruct (retry_attempts_accepts_truthy _ _ _ _ _ _ _ Hcall) as [-> _].
Qed.

(** A review that returns has run as [self_correct_answers] does. *)
Lemma full_self_correct_returns
    (product_name model_choice : string)
    (extracted_answers : list AnswerRecord.t) (w w' : World)
    (outcome : option (list json)) :
  Full.self_correct_answers decoder_gives_up product_name extracted_answers
    model_choice w
  = (inr outcome, w') ->
  self_correct_answers product_name extracted_answers model_choice w
  = (inr outcome, w').
Proof.
  unfold Full.self_correct_answers, self_correct_answers.
  destruct (_get_full_markdown_for_product product_name) as [md|];
    [|unfold ret; now intros [= <- <-]].
  destruct (negb (PyStr.truthy md)); [unfold ret; now intros [= <- <-]|].
  unfold bind.
  destruct (_call_llm_with_retry _ _ _ _ w) as [[response|] w1];
    [|unfold ret; now intros [= <- <-]].
  destruct (PyStr.truthy response); [|unfold ret; now intros [= <- <-]].
  unfold ret, Full.review_response.
  destruct (Full.decode_gives_up decoder_gives_up response); [discriminate|].
  destruct (review_response response); [discriminate|].
  now intros [= <- <-].
Qed.

(** X18. An exception leaves the reviewer in two cases only, both after
    the retrying caller has handed over a response: the decoder gives up
    on it and its [RecursionError] gets out; or the response decodes to a
    value that is not an object and [TypeError] gets out. A decoded
    object, whatever its keys, never makes the reviewer raise, and
    neither does a response the decoder refuses with
    [json.JSONDecodeError]. *)
Theorem review_exception_inversion
    (product_name model_choice : string)
    (extracted_answers : list AnswerRecord.t) (w : World) (e : Uncaught) :
  fst (Full.self_correct_answers decoder_gives_up product_name
         extracted_answers model_choice w)
  = inl e ->
  exists md response_str,
    _get_full_markdown_for_product product_name = Some md
    /\ fst (_call_llm_with_retry
              (review_messages product_name
                 (_truncate_markdown md product_name) extracted_answers)
              model_choice 32000 MAX_LLM_RETRIES w) = Some response_str
    /\ ((e = RecursionError
         /\ Full.decode_gives_up decoder_gives_up response_str = true)
        \/ (e = Raised TypeError
            /\ Full.decode_gives_up decoder_gives_up response_str = false
            /\ exists v,
                 decode_response response_str = Some v
                 /\ PyJson.is_dict v = false)).
Proof.
  intros Hrun.
  destruct (_get_full_markdown_for_product product_name) as [md|] eqn:Hmd.
  2:{ unfold Full.self_correct_answers in Hrun. rewrite Hmd in Hrun.
      discriminate. }
  rewrite (full_self_correct_answers_unfold _ _ md) in Hrun by exact Hmd.
  cbn [fst] in Hrun.
  destruct (fst (_call_llm_with_retry _ _ _ _ w)) as [response|] eqn:Hcall;
    [|discriminate].
  exists md, response. split; [reflexivity|]. split; [exact Hcall|].
  unfold Full.review_response in Hrun.
  destruct (Full.decode_gives_up decoder_gives_up response) eqn:Hup.
  { left. injection Hrun as <-. now split. }
  right. rewrite review_response_cases in Hrun.
  destruct (decode_response response) as [v|] eqn:Hdec; [|discriminate].
  assert (Hgoal : e = Raised TypeError /\ PyJson.is_dict v = false).
  { destruct v as [| | | |s|items|d]; try (injection Hrun as <-; now split).
    - destruct (PyStr.contains s "corrections"); [|discriminate].
      injection Hrun as <-. now split.
    - destruct (existsb _ items); [|discriminate].
      injection Hrun as <-. now split.
    - destruct (PyDict.get d "corrections") as [[]|]; discriminate. }
  destruct Hgoal as [-> Hv]. repeat split. now exists v.
Qed.

End FullFacts.

(* ===================================================================== *)
(** * A decoder that gives up, in the AlphaCare scenario *)
(* ===================================================================== *)

(** The deep text passes the shape test of the retrying caller. *)
Example deep_text_accepted :
  PyStr.truthy Faults.deep_text = true
  /\ @json_shaped (PyStr.strip Faults.deep_text) = true
  /\ @Full.decode_gives_up Scenario.collaborators Faults.gives_up Faults.deep_text
     = true.
Proof. vm_compute. repeat split. Qed.

(** Three categories are asked and the response for the second one is
    the deep text: [RecursionError] leaves the extractor after two
    requests, the third category is never asked and the answer of the
    first one is lost. *)
Example extract_decoder_gives_up :
  let run := Full.extract_answers_for_product Faults.gives_up "AlphaCare"
               Scenario.three_config true "o4-mini"
               (Scenario.start [Content Scenario.partial_response;
                                Content Faults.deep_text;
                                Content Scenario.partial_response]) in
  fst run = inl RecursionError
  /\ length (llm_calls (snd run)) = 2
  /\ gateway (snd run) = [Content Scenario.partial_response].
Proof. vm_compute. repeat split. Qed.

(** X12 at three categories with one question each, the middle one
    failing three times: one request, then three, then one. *)
Lemma extract_call_budget_witness :
  exists result (w' : @World Scenario.collaborators) counts,
    Full.extract_answers_for_product Faults.gives_up "AlphaCare"
      Scenario.three_config true "o4-mini" Cases.middle_fails
    = (inr (Some result), w')
    /\ length counts = 3
    /\ Forall2 (@category_budget Scenario.collaborators
                  (QuestionsConfig.questions Scenario.three_config))
         ["Dental"; "Vision"; "Therapy"] counts
    /\ llm_calls w'
       = @category_requests Scenario.collaborators "AlphaCare"
           (_truncate_markdown Scenario.alpha_text "AlphaCare") "o4-mini"
           (QuestionsConfig.questions Scenario.three_config)
           ["Dental"; "Vision"; "Therapy"] counts.
Proof.
  destruct (Full.extract_answers_for_product Faults.gives_up "AlphaCare"
              Scenario.three_config true "o4-mini" Cases.middle_fails)
    as [[e|[result|]] w'] eqn:Hrun; try (vm_compute in Hrun; discriminate Hrun).
  destruct (extract_call_budget Faults.gives_up "AlphaCare" "o4-mini"
              Scenario.alpha_text Scenario.three_config Cases.middle_fails w'
              result eq_refl Hrun)
    as (counts & Hlen & Hbudget & Hcalls & _).
  exists result, w', counts. repeat split; assumption.
Defined.

(** X18 at the array that holds the string [corrections], with a decoder
    that gives up on the deep text only. *)
Lemma review_exception_inversion_witness :
  exists v,
    @decode_response Scenario.collaborators Scenario.array_response = Some v
    /\ PyJson.is_dict v = false.
Proof.
  destruct (review_exception_inversion Faults.gives_up "AlphaCare" "o4-mini"
              [Scenario.r1; Scenario.r2]
              (Cases.one_reply Scenario.array_response) (Raised TypeError)
              eq_refl)
    as (md & response & _ & Hcall & [[Hrec _]|(_ & _ & v & Hdec & Hv)]).
  - discriminate Hrec.
  - injection Hcall as <-. now exists v.
Defined.

(** The other exception: the review response is the deep text. *)
Example review_decoder_gives_up :
  fst (Full.self_correct_answers Faults.gives_up "AlphaCare"
         [Scenario.r1; Scenario.r2] "o4-mini" (Cases.one_reply Faults.deep_text))
  = inl RecursionError.
Proof. vm_compute. reflexivity. Qed.
